(** * webargs: the aiohttp request-argument parser

    A shallow embedding of [src/webargs/aiohttpparser.py]: the status-code
    table built at import time, the location loaders with their per-request
    cache, the request lookup used by the decorators and the two error
    handlers.  Python's dynamically typed values are an inductive type,
    dictionaries are finite maps, [await]ed body reads are recorded in a log
    carried by the state, and exceptions are an explicit result. *)

From Stdlib Require Import ZArith List String Ascii.
From stdpp Require Import base option gmap strings list fin_maps.

Set Warnings "-register-all".

Local Open Scope string_scope.
Local Open Scope Z_scope.

(** ** Python values *)

(** A decoded JSON document.  Number literals are kept as their text: no
    loader looks inside them.  [JNull] is Python's [None]. *)
Inductive json : Type :=
| JNull
| JBool (b : bool)
| JNum (literal : string)
| JStr (s : string)
| JArr (items : list json)
| JObj (members : list (string * json)).

(** An aiohttp multidict: ordered key/value pairs, a key may repeat. *)
Definition MultiDict : Type := list (string * string).

(** What a schema declares for a field, as far as the loaders care. *)
Inductive multiplicity : Type := Scalar | Many.

Abbreviation Schema := (gmap string multiplicity).

(** The values that travel through the loaders and the cache. *)
Inductive pyobj : Type :=
| PMissing                                   (* core.missing *)
| PJson (j : json)                           (* a JSON document, or None *)
| PMultiDict (d : MultiDict)                 (* what req.post() returns *)
| PProxy (data : pyobj) (schema : Schema)    (* MultiDictProxy(data, schema) *)
| PMapping (m : list (string * string)).     (* req.match_info *)

Definition PyNone : pyobj := PJson JNull.

(** [x is None] *)
Definition is_None (x : pyobj) : bool :=
  match x with
  | PJson JNull => true
  | _ => false
  end.

(** [x is core.missing] *)
Definition is_missing (x : pyobj) : bool :=
  match x with
  | PMissing => true
  | _ => false
  end.

(** ** Classes of the framework's exception module *)

(** A class object: its name, the names of its proper ancestors (the tail
    of its method resolution order), its [status_code] attribute and the
    parameters of its [__init__] that must be passed by position. *)
Record PyClass : Type := mkClass {
  cls_name : string;
  cls_ancestors : list string;
  status_code : option Z;
  init_positional : list string
}.

Definition cls_mro (c : PyClass) : list string := cls_name c :: cls_ancestors c.

Definition mem_string (s : string) (l : list string) : bool :=
  existsb (String.eqb s) l.

(** [issubclass(c, d)] for two class objects. *)
Definition issubclass (c d : PyClass) : bool :=
  mem_string (cls_name d) (cls_mro c).

(** An attribute of a module: a class, or anything else (for which
    [issubclass] raises [TypeError]). *)
Inductive module_attr : Type :=
| AttrClass (c : PyClass)
| AttrOther (repr : string).

(** [web_exceptions.HTTPException], the root the scan tests against. *)
Definition HTTPException_name : string := "HTTPException".

Definition mem_HTTPException (c : PyClass) : bool :=
  mem_string HTTPException_name (cls_mro c).

(** [class HTTPUnprocessableEntity(web.HTTPClientError): status_code = 422] *)
Definition HTTPUnprocessableEntity : PyClass :=
  mkClass "webargs.aiohttpparser.HTTPUnprocessableEntity"
          ["HTTPClientError"; "HTTPError"; "HTTPException"]
          (Some 422) [].

(** [exception_map = {422: HTTPUnprocessableEntity}] *)
Definition exception_map_seed : gmap Z PyClass :=
  {[ 422 := HTTPUnprocessableEntity ]}.

(** One iteration of the loop of [_find_exceptions].  For an attribute that
    is not a class [issubclass] raises [TypeError], [is_http_exception] is
    [False] and the loop continues. *)
Definition find_exceptions_step (m : gmap Z PyClass) (obj : module_attr)
  : gmap Z PyClass :=
  match obj with
  | AttrOther _ => m
  | AttrClass c =>
      if negb (mem_HTTPException c) then m
      else
        match status_code c with
        | None => m
        | Some code =>
            match m !! code with
            | Some old_obj =>
                if issubclass c old_obj then m else <[ code := c ]> m
            | None => <[ code := c ]> m
            end
        end
  end.

(** [_find_exceptions()], over the attributes named by [__all__]. *)
Definition _find_exceptions (all : list module_attr) (m : gmap Z PyClass)
  : gmap Z PyClass :=
  fold_left find_exceptions_step all m.

(** A type qualifies for the table when it is an HTTP exception with a
    concrete status code. *)
Definition qualifies (c : PyClass) (code : Z) : Prop :=
  mem_HTTPException c = true ∧ status_code c = Some code.

Definition attr_qualifies (obj : module_attr) (code : Z) : Prop :=
  match obj with
  | AttrClass c => qualifies c code
  | AttrOther _ => False
  end.

Global Instance attr_qualifies_dec obj code : Decision (attr_qualifies obj code).
Proof. destruct obj; unfold attr_qualifies, qualifies; apply _. Defined.

(** No attribute of [objs] qualifies for [code]. *)
Definition none_qualifies (code : Z) (objs : list module_attr) : Prop :=
  Forall (λ obj, ¬ attr_qualifies obj code) objs.

(** Some attribute of [objs] qualifies for [code]. *)
Definition some_qualifies (code : Z) (objs : list module_attr) : Prop :=
  Exists (λ obj, attr_qualifies obj code) objs.

(** The reading of the table as keeping, per status code, the most
    specific type seen: no enumerated type of a code is a proper subclass
    of the type registered for it. *)
Definition maps_to_most_specific (all : list module_attr) (m : gmap Z PyClass)
  : Prop :=
  ∀ c code r,
    AttrClass c ∈ all → qualifies c code → m !! code = Some r →
    issubclass c r = true → issubclass r c = true.

(** Every entry is filed under the status code of its class. *)
Definition keyed_by_status (m : gmap Z PyClass) : Prop :=
  ∀ code c, m !! code = Some c → status_code c = Some code.

(** ** Exceptions *)

Record ValidationError : Type := { messages : json }.

(** An instance of a class of the exception map, as built by
    [error_class(body=..., headers=..., content_type=...)]. *)
Record HTTPErrorResponse : Type := mkHTTPError {
  err_class : PyClass;
  err_body : list Byte.byte;
  err_headers : option (list (string * string));
  err_content_type : string
}.

Inductive exn : Type :=
| HTTPError (e : HTTPErrorResponse)
| LookupError (msg : string) (status : option Z)
| KeyError (key : string)
| ValueError (msg : string)
| NotImplementedError (msg : string)
| TypeError (missing : list string).

(** ** Requests *)

(** What reading the body and decoding it with the request's charset
    gives: the text, a [UnicodeDecodeError], or another exception of the
    read (a [LookupError] for an unknown charset, for one). *)
Inductive body_text_outcome : Type :=
| BodyText (text : string)
| BodyUnicodeDecodeError
| BodyError (e : exn).

(** The part of an aiohttp request the parser reads.  [body_text] is the
    outcome of decoding the body; [post] is what [await req.post()]
    returns. *)
Record Request : Type := mkRequest {
  body_exists : bool;
  content_type : string;
  query : MultiDict;
  headers : MultiDict;
  cookies : MultiDict;
  match_info : list (string * string);
  body_text : body_text_outcome;
  post : MultiDict
}.

(** Outcome of [await req.json(loads=json.loads)]: the document, one of
    the two exceptions [load_json] handles, or any other exception. *)
Inductive json_outcome : Type :=
| JsonValue (j : json)
| JSONDecodeError (doc : string)
| UnicodeDecodeError
| ReadError (e : exn).

(** The two awaited body reads. *)
Inductive io_event : Type := ReadJson | ReadPost.

Global Instance io_event_eq_dec : EqDecision io_event.
Proof. solve_decision. Defined.

(** ** The parser monad *)

Inductive result (A : Type) : Type :=
| Ok (a : A)
| Raise (e : exn).

Arguments Ok {A} a.
Arguments Raise {A} e.

(** The parser instance during one request: its [_cache] dictionary and
    the body reads awaited so far (most recent first). *)
Record pstate : Type := mkState {
  cache : gmap string pyobj;
  io_log : list io_event
}.

Definition M (A : Type) : Type := pstate → result A * pstate.

Definition ret {A} (a : A) : M A := λ st, (Ok a, st).

Definition raise {A} (e : exn) : M A := λ st, (Raise e, st).

Definition bind {A B} (m : M A) (k : A → M B) : M B :=
  λ st, match m st with
        | (Ok a, st') => k a st'
        | (Raise e, st') => (Raise e, st')
        end.

Global Instance M_ret : MRet M := @ret.
Global Instance M_bind : MBind M := λ A B k m, bind m k.

(** [self._cache.get(key)]: [None] when the key is absent. *)
Definition cache_get (key : string) : M pyobj :=
  λ st, (Ok (default PyNone (cache st !! key)), st).

(** [self._cache[key]] *)
Definition cache_getitem (key : string) : M pyobj :=
  λ st, match cache st !! key with
        | Some v => (Ok v, st)
        | None => (Raise (KeyError key), st)
        end.

(** [self._cache[key] = v] *)
Definition cache_setitem (key : string) (v : pyobj) : M unit :=
  λ st, (Ok tt, mkState (<[ key := v ]> (cache st)) (io_log st)).

(** Record an awaited body read. *)
Definition await (ev : io_event) : M unit :=
  λ st, (Ok tt, mkState (cache st) (ev :: io_log st)).

(** How often a body read was awaited. *)
Definition reads (ev : io_event) (st : pstate) : nat :=
  length (filter (λ e, e = ev) (io_log st)).

Definition fresh : pstate := mkState ∅ [].

(** ** Handler arguments *)

(** An aiohttp class-based view; it is built from the request it serves. *)
Record View : Type := { request : Request }.

(** A positional argument of a handler: a request, a view, an object of
    another class that has a [request] attribute, or anything else (a path
    parameter, the parsed arguments, ...). *)
Inductive pyarg : Type :=
| ArgRequest (r : Request)
| ArgView (v : View)
| ArgOther (repr : string)
| ArgWithRequest (r : Request).

(** Neither a request nor a view. *)
Definition is_other (a : pyarg) : bool :=
  match a with
  | ArgOther _ | ArgWithRequest _ => true
  | _ => false
  end.

(** The request an argument gives access to, by what it exposes. *)
Definition exposed_request (a : pyarg) : option Request :=
  match a with
  | ArgRequest r => Some r
  | ArgView v => Some (request v)
  | ArgWithRequest r => Some r
  | ArgOther _ => None
  end.

(** The lookup as the interface description words it: the first argument
    that is a request or exposes a [request] attribute. *)
Fixpoint find_request_by_capability (args : list pyarg) : option Request :=
  match args with
  | [] => None
  | a :: rest =>
      match exposed_request a with
      | Some r => Some r
      | None => find_request_by_capability rest
      end
  end.

(** ** Locations and the multidict proxy *)

Inductive location : Type :=
| LQuery | LForm | LJson | LJsonOrForm | LHeaders | LCookies | LFiles
| LMatchInfo | LPath.

(** All values a multidict holds for a key, in order. *)
Definition getall (key : string) (d : MultiDict) : list string :=
  (List.filter (λ kv, String.eqb kv.1 key) d).*2.

(** Modelled from the spec: the lookup of [MultiDictProxy] (module
    webargs.multidictproxy): a key without a value is missing; a field
    the schema declares as list-typed gets the full ordered sequence of
    values, any other field the first (or only) value. *)
Definition proxy_lookup (raw : pyobj) (key : string) : option pyobj :=
  match raw with
  | PProxy (PMultiDict d) schema =>
      match getall key d with
      | [] => None
      | v :: vs =>
          match schema !! key with
          | Some Many => Some (PJson (JArr (JStr <$> v :: vs)))
          | _ => Some (PJson (JStr v))
          end
      end
  | PMapping m => (λ v, PJson (JStr v)) <$> head (getall key m)
  | PJson (JObj members) => PJson <$> (snd <$> List.find (λ kv, String.eqb kv.1 key) members)
  | _ => None
  end.

(** Collaborators outside this module: [core.is_json], [json.loads]
    ([None] when it raises [JSONDecodeError]), [json.dumps] and the
    attributes listed by [aiohttp.web_exceptions.__all__]. *)
Class Framework : Type := {
  is_json : string → bool;
  json_loads : string → option json;
  json_dumps : json → string;
  web_exceptions_all : list module_attr
}.

Section Parser.

Context `{Framework}.

(** The module-level table once [_find_exceptions()] has run. *)
Definition exception_map : gmap Z PyClass :=
  _find_exceptions web_exceptions_all exception_map_seed.

(** The framework's module exports an HTTP exception of that status. *)
Definition provides_status (code : Z) : Prop :=
  some_qualifies code web_exceptions_all.

Definition is_json_request (req : Request) : bool :=
  is_json (content_type req).

(** [s.encode("utf-8")]: strings are kept as their UTF-8 bytes. *)
Definition encode_utf8 (s : string) : list Byte.byte := list_byte_of_string s.

(** [req.json(loads=json.loads)]: decode the body to text, then parse it;
    a [JSONDecodeError] carries the text as its [doc]. *)
Definition req_json (req : Request) : json_outcome :=
  match body_text req with
  | BodyError e => ReadError e
  | BodyUnicodeDecodeError => UnicodeDecodeError
  | BodyText text =>
      match json_loads text with
      | Some j => JsonValue j
      | None => JSONDecodeError text
      end
  end.

(** [error_class(body=..., headers=..., content_type=...)]: the handlers
    pass keyword arguments only, so for a class whose [__init__] has
    parameters that must be passed by position the call itself raises
    [TypeError]. *)
Definition instantiate (error_class : PyClass) (body : list Byte.byte)
    (headers : option (list (string * string))) (content_type : string) : exn :=
  match init_positional error_class with
  | [] => HTTPError (mkHTTPError error_class body headers content_type)
  | missing => TypeError missing
  end.

(** The types the framework's module exports for a status code are all
    constructed from keyword arguments alone. *)
Definition keyword_only (code : Z) : Prop :=
  Forall (λ obj, match obj with
                 | AttrClass c => qualifies c code → init_positional c = []
                 | AttrOther _ => True
                 end) web_exceptions_all.

Definition invalid_json_messages : json :=
  JObj [("json", JArr [JStr "Invalid JSON body."])].


Definition _handle_invalid_json_error {A} (req : Request) : M A :=
  match exception_map !! 400 with
  | None => raise (KeyError "400")
  | Some error_class =>
      raise (instantiate error_class
                         (encode_utf8 (json_dumps invalid_json_messages))
                         None
                         "application/json")
  end.

Definition load_querystring (req : Request) (schema : Schema) : M pyobj :=
  mret (PProxy (PMultiDict (query req)) schema).

Definition load_form (req : Request) (schema : Schema) : M pyobj :=
  post_data ← cache_get "post";
  (if is_None post_data
   then await ReadPost;; cache_setitem "post" (PMultiDict (post req))
   else mret tt);;
  data ← cache_getitem "post";
  mret (PProxy data schema).

Definition load_json (req : Request) (schema : Schema) : M pyobj :=
  json_data ← cache_get "json";
  if is_None json_data then
    if negb (body_exists req && is_json_request req) then mret PMissing
    else
      await ReadJson;;
      match req_json req with
      | JSONDecodeError doc =>
          if String.eqb doc "" then mret PMissing
          else _handle_invalid_json_error req
      | UnicodeDecodeError => _handle_invalid_json_error req
      | ReadError e => raise e
      | JsonValue json_data =>
          cache_setitem "json" (PJson json_data);;
          mret (PJson json_data)
      end
  else mret json_data.

Definition load_json_or_form (req : Request) (schema : Schema) : M pyobj :=
  data ← load_json req schema;
  if negb (is_missing data) then mret data
  else load_form req schema.

Definition load_headers (req : Request) (schema : Schema) : M pyobj :=
  mret (PProxy (PMultiDict (headers req)) schema).

Definition load_cookies (req : Request) (schema : Schema) : M pyobj :=
  mret (PProxy (PMultiDict (cookies req)) schema).

Definition load_files_message : string :=
  "load_files is not implemented. You may be able to use load_form for parsing upload data.".

Definition load_files (req : Request) (schema : Schema) : M pyobj :=
  raise (NotImplementedError load_files_message).

Definition load_match_info (req : Request) (schema : Schema) : M pyobj :=
  mret (PMapping (match_info req)).

(** The loop of [get_request_from_view_args]: the value of [req] when the
    loop ends, [None] when no argument matched. *)
Fixpoint find_request (args : list pyarg) : option Request :=
  match args with
  | [] => None
  | ArgRequest r :: _ => Some r
  | ArgView v :: _ => Some (request v)
  | ArgOther _ :: rest => find_request rest
  | ArgWithRequest _ :: rest => find_request rest
  end.

Definition get_request_from_view_args
    (view : string) (args : list pyarg) (kwargs : list (string * pyarg))
  : result Request :=
  match find_request args with
  | Some req => Ok req
  | None => Raise (ValueError "Request argument not found for handler")
  end.

(** [get_request_from_view_args] as the interface description words it. *)
Definition located_by_capability
    (view : string) (args : list pyarg) (kwargs : list (string * pyarg))
  : Prop :=
  get_request_from_view_args view args kwargs =
  match find_request_by_capability args with
  | Some req => Ok req
  | None => Raise (ValueError "Request argument not found for handler")
  end.

(** Modelled from the spec: [core.Parser.DEFAULT_VALIDATION_STATUS], a
    constant of the base parser (module webargs.core); the spec gives the
    default validation-failure status as 422. *)
Definition DEFAULT_VALIDATION_STATUS : Z := 422.

(** [error_status_code or default] *)
Definition status_or (error_status_code : option Z) (default : Z) : Z :=
  match error_status_code with
  | None => default
  | Some n => if Z.eqb n 0 then default else n
  end.

Definition handle_error {A} (error : ValidationError) (req : Request)
    (schema : Schema) (error_status_code : option Z)
    (error_headers : option (list (string * string))) : M A :=
  match exception_map !! status_or error_status_code DEFAULT_VALIDATION_STATUS with
  | None => raise (LookupError "No exception for {0}" error_status_code)
  | Some error_class =>
      raise (instantiate error_class
                         (encode_utf8 (json_dumps (messages error)))
                         error_headers
                         "application/json")
  end.

(** The behaviour of [handle_error] read off the interface description:
    the table is consulted under the status passed in, under the default
    when none is passed. *)
Definition handle_error_as_stated (A : Type) (error : ValidationError)
    (req : Request) (schema : Schema) (error_status_code : option Z)
    (error_headers : option (list (string * string))) (st : pstate) : Prop :=
  match exception_map !! default DEFAULT_VALIDATION_STATUS error_status_code with
  | Some error_class =>
      @handle_error A error req schema error_status_code error_headers st =
      (Raise (HTTPError
                (mkHTTPError error_class
                             (encode_utf8 (json_dumps (messages error)))
                             error_headers
                             "application/json")), st)
  | None =>
      @handle_error A error req schema error_status_code error_headers st =
      (Raise (LookupError "No exception for {0}" error_status_code), st)
  end.

(** Modelled from the spec: the location dispatch of the base parser
    (module webargs.core); of [__location_map__] only the entries
    [match_info] and [path] are in this module, the others are the
    loaders the spec lists per location. *)
Definition load_location (loc : location) (req : Request) (schema : Schema)
  : M pyobj :=
  match loc with
  | LQuery => load_querystring req schema
  | LForm => load_form req schema
  | LJson => load_json req schema
  | LJsonOrForm => load_json_or_form req schema
  | LHeaders => load_headers req schema
  | LCookies => load_cookies req schema
  | LFiles => load_files req schema
  | LMatchInfo => load_match_info req schema
  | LPath => load_match_info req schema
  end.

(** A handler that loads a sequence of locations from one request with one
    parser instance, going on after a load that raised. *)
Fixpoint run_loads (locs : list location) (req : Request) (schema : Schema)
    (st : pstate) : pstate :=
  match locs with
  | [] => st
  | loc :: rest => run_loads rest req schema (load_location loc req schema st).2
  end.

(** Modelled from the spec: [parse] of the base parser (module
    webargs.core): the raw values of the location are run through the
    schema.  Coercion and validation belong to the schema library and are
    left out, every declared field is bound to what the source holds for
    it and a field without a value is left unbound. *)
Definition parse (schema : Schema) (req : Request) (loc : location)
  : M (gmap string pyobj) :=
  raw ← load_location loc req schema;
  mret (map_imap (λ name _, proxy_lookup raw name) schema).

(** What the cache can hold while one request is handled: under [json]
    nothing or the document the body decodes to, under [post] nothing or
    the form fields, which then were read exactly once. *)
Definition json_cache_ok (req : Request) (st : pstate) : Prop :=
  cache st !! "json" = None
  ∨ ∃ j, body_exists req && is_json_request req = true
         ∧ req_json req = JsonValue j
         ∧ cache st !! "json" = Some (PJson j).

Definition post_cache_ok (req : Request) (st : pstate) : Prop :=
  (cache st !! "post" = None ∧ reads ReadPost st = 0%nat)
  ∨ (cache st !! "post" = Some (PMultiDict (post req))
     ∧ reads ReadPost st = 1%nat).

(** A body that decodes to a document other than [null] is read when the
    cache entry is made and at no other time. *)
Definition json_read_once (req : Request) (st : pstate) : Prop :=
  ∀ j, req_json req = JsonValue j → j ≠ JNull →
       (cache st !! "json" = None ∧ reads ReadJson st = 0%nat)
       ∨ (cache st !! "json" = Some (PJson j) ∧ reads ReadJson st = 1%nat).

Definition cache_inv (req : Request) (st : pstate) : Prop :=
  json_cache_ok req st ∧ post_cache_ok req st ∧ json_read_once req st.

End Parser.

(** ** Sample framework and requests

    A concrete instance of the collaborators, used to run the definitions:
    a slice of aiohttp's exception hierarchy, a decoder that knows a few
    documents and a serialiser without escapes. *)
Module Sample.

Definition HTTPException : PyClass :=
  mkClass "HTTPException" [] (Some (-1)) [].
Definition HTTPError : PyClass :=
  mkClass "HTTPError" ["HTTPException"] (Some (-1)) [].
Definition HTTPClientError : PyClass :=
  mkClass "HTTPClientError" ["HTTPError"; "HTTPException"] (Some (-1)) [].
Definition HTTPBadRequest : PyClass :=
  mkClass "HTTPBadRequest" ["HTTPClientError"; "HTTPError"; "HTTPException"]
          (Some 400) [].
Definition HTTPNotFound : PyClass :=
  mkClass "HTTPNotFound" ["HTTPClientError"; "HTTPError"; "HTTPException"]
          (Some 404) [].

Definition exceptions : list module_attr :=
  [AttrClass HTTPException; AttrClass HTTPError; AttrClass HTTPClientError;
   AttrClass HTTPBadRequest; AttrClass HTTPNotFound].

Definition loads (text : string) : option json :=
  if String.eqb text "null" then Some JNull
  else if String.eqb text "{}" then Some (JObj [])
  else if String.eqb text "[]" then Some (JArr [])
  else if String.eqb text "true" then Some (JBool true)
  else None.

Definition dquote : string := String (ascii_of_nat 34) EmptyString.

Definition quoted (s : string) : string := dquote ++ s ++ dquote.

Fixpoint dumps (j : json) : string :=
  match j with
  | JNull => "null"
  | JBool true => "true"
  | JBool false => "false"
  | JNum literal => literal
  | JStr s => quoted s
  | JArr items => "[" ++ String.concat ", " (List.map dumps items) ++ "]"
  | JObj members =>
      "{" ++ String.concat ", "
               (List.map (λ kv, quoted kv.1 ++ ": " ++ dumps kv.2) members)
          ++ "}"
  end.

Definition framework : Framework := {|
  is_json := String.eqb "application/json";
  json_loads := loads;
  json_dumps := dumps;
  web_exceptions_all := exceptions
|}.

(** A framework whose exception module exports nothing. *)
Definition bare_framework : Framework := {|
  is_json := String.eqb "application/json";
  json_loads := loads;
  json_dumps := dumps;
  web_exceptions_all := []
|}.

(** A hierarchy in which a subclass inherits the status code of its base. *)
Definition HTTPMalformedBody : PyClass :=
  mkClass "HTTPMalformedBody"
          ["HTTPBadRequest"; "HTTPClientError"; "HTTPError"; "HTTPException"]
          (Some 400) [].

Definition layered : list module_attr :=
  [AttrClass HTTPBadRequest; AttrClass HTTPMalformedBody].

Definition json_request (text : option string) : Request :=
  mkRequest true "application/json" [] [] [] []
            (match text with
             | Some text => BodyText text
             | None => BodyUnicodeDecodeError
             end) [].

Definition form_request : Request :=
  mkRequest true "application/x-www-form-urlencoded"
            [] [] [] [] (BodyText "name=steve") [("name", "steve")].

Definition query_request : Request :=
  mkRequest false "" [("name", "steve"); ("tag", "a"); ("tag", "b")]
            [] [] [] (BodyText "") [].

Definition hello_schema : Schema :=
  {[ "name" := Scalar; "tag" := Many ]}.

Definition failure : ValidationError :=
  {| messages := JObj [("name", JArr [JStr "Invalid value."])] |}.

End Sample.


(** ** Further notions and samples *)

(** The attributes the scan acts on: classes below [HTTPException] whose
    [status_code] is not [None]. *)
Definition considered (obj : module_attr) : bool :=
  match obj with
  | AttrClass c => mem_HTTPException c && bool_decide (is_Some (status_code c))
  | AttrOther _ => false
  end.

(** The locations whose loaders read neither the cache nor the body. *)
Definition stateless (loc : location) : bool :=
  match loc with
  | LForm | LJson | LJsonOrForm => false
  | _ => true
  end.

(** A framework that, like aiohttp, exports a type of its own for 422,
    and one attribute that is not a class. *)
Module MoreSamples.

Definition HTTPUnprocessableEntity : PyClass :=
  mkClass "HTTPUnprocessableEntity"
          ["HTTPClientError"; "HTTPError"; "HTTPException"]
          (Some 422) [].

(** A class of the module outside the HTTP exception hierarchy. *)
Definition NotAppKeyWarning : PyClass :=
  mkClass "NotAppKeyWarning" ["UserWarning"; "Warning"; "Exception"] None [].

(** A type whose constructor needs arguments passed by position. *)
Definition HTTPMethodNotAllowed : PyClass :=
  mkClass "HTTPMethodNotAllowed"
          ["HTTPClientError"; "HTTPError"; "HTTPException"]
          (Some 405) ["method"; "allowed_methods"].

Definition exceptions : list module_attr :=
  [AttrClass Sample.HTTPException; AttrOther "HTTP_STATUS_TEXT";
   AttrClass Sample.HTTPBadRequest; AttrClass NotAppKeyWarning;
   AttrClass HTTPMethodNotAllowed; AttrClass HTTPUnprocessableEntity].

Definition framework : Framework := {|
  is_json := String.eqb "application/json";
  json_loads := Sample.loads;
  json_dumps := Sample.dumps;
  web_exceptions_all := exceptions
|}.

Definition cached_state : pstate :=
  mkState {[ "json" := PJson (JObj []); "other" := PMissing ]} [ReadJson].

(** A JSON request that names a charset Python does not know. *)
Definition bogus_charset_request : Request :=
  mkRequest true "application/json" [] [] [] []
            (BodyError (LookupError "unknown encoding: bogus" None)) [].

End MoreSamples.

(** * Properties *)

(** ** The status-code table *)

Lemma issubclass_refl c : issubclass c c = true.
Proof.
  unfold issubclass, cls_mro, mem_string. simpl.
  by rewrite String.eqb_refl.
Qed.

Lemma step_skip_other m repr : find_exceptions_step m (AttrOther repr) = m.
Proof. reflexivity. Qed.

Lemma step_qualifying m c code :
  qualifies c code →
  find_exceptions_step m (AttrClass c) =
    match m !! code with
    | Some old_obj => if issubclass c old_obj then m else <[ code := c ]> m
    | None => <[ code := c ]> m
    end.
Proof.
  intros [Hhttp Hcode]. unfold find_exceptions_step.
  by rewrite Hhttp, Hcode.
Qed.

Lemma step_not_qualifying m c :
  (∀ code, ¬ qualifies c code) → find_exceptions_step m (AttrClass c) = m.
Proof.
  intros Hnq. unfold find_exceptions_step.
  destruct (mem_HTTPException c) eqn:Hhttp; [|done]. simpl.
  destruct (status_code c) as [code|] eqn:Hcode; [|done].
  destruct (Hnq code). by split.
Qed.

Lemma step_lookup_ne m obj code :
  ¬ attr_qualifies obj code →
  find_exceptions_step m obj !! code = m !! code.
Proof.
  intros Hnq. destruct obj as [c|repr]; [|done].
  unfold find_exceptions_step.
  destruct (mem_HTTPException c) eqn:Hhttp; [|done]. simpl.
  destruct (status_code c) as [code'|] eqn:Hcode; [|done].
  assert (code' ≠ code) as Hne.
  { intros ->. by apply Hnq. }
  destruct (m !! code') as [old|]; [destruct (issubclass c old)|];
    by rewrite ?lookup_insert_ne.
Qed.

Lemma step_is_Some m obj code :
  is_Some (m !! code) → is_Some (find_exceptions_step m obj !! code).
Proof.
  intros Hsome. destruct obj as [c|repr]; [|done].
  unfold find_exceptions_step.
  destruct (negb (mem_HTTPException c)); [done|].
  destruct (status_code c) as [code'|]; [|done].
  destruct (m !! code') as [old|] eqn:Hold.
  - destruct (issubclass c old); [done|].
    rewrite lookup_insert. case_decide; [by eexists | done].
  - rewrite lookup_insert. case_decide; [by eexists | done].
Qed.

Lemma step_registers m c code :
  qualifies c code →
  ∃ r, find_exceptions_step m (AttrClass c) !! code = Some r
       ∧ issubclass c r = true.
Proof.
  intros Hq. rewrite (step_qualifying _ _ _ Hq).
  destruct (m !! code) as [old|] eqn:Hold.
  - destruct (issubclass c old) eqn:Hsub.
    + by exists old.
    + exists c. by rewrite lookup_insert_eq, issubclass_refl.
  - exists c. by rewrite lookup_insert_eq, issubclass_refl.
Qed.

Lemma step_keyed m obj :
  keyed_by_status m → keyed_by_status (find_exceptions_step m obj).
Proof.
  intros Hk. destruct obj as [c|repr]; [|done].
  unfold find_exceptions_step.
  destruct (negb (mem_HTTPException c)); [done|].
  destruct (status_code c) as [code'|] eqn:Hcode; [|done].
  assert (keyed_by_status (<[ code' := c ]> m)) as Hins.
  { intros code r. rewrite lookup_insert. case_decide.
    - intros [= <-]. by subst.
    - apply Hk. }
  destruct (m !! code') as [old|]; [destruct (issubclass c old)|]; done.
Qed.

Lemma find_exceptions_app pre post m :
  _find_exceptions (pre ++ post) m = _find_exceptions post (_find_exceptions pre m).
Proof. apply fold_left_app. Qed.

Lemma find_exceptions_cons obj all m :
  _find_exceptions (obj :: all) m =
  _find_exceptions all (find_exceptions_step m obj).
Proof. reflexivity. Qed.

Lemma find_exceptions_is_Some all m code :
  is_Some (m !! code) → is_Some (_find_exceptions all m !! code).
Proof.
  revert m. induction all as [|obj all IH]; intros m Hsome; [done|].
  simpl. by apply IH, step_is_Some.
Qed.

Lemma find_exceptions_keyed all m :
  keyed_by_status m → keyed_by_status (_find_exceptions all m).
Proof.
  revert m. induction all as [|obj all IH]; intros m Hk; [done|].
  simpl. by apply IH, step_keyed.
Qed.

Lemma find_exceptions_lookup_ne all m code :
  none_qualifies code all →
  _find_exceptions all m !! code = m !! code.
Proof.
  revert m. induction all as [|obj all IH]; intros m Hnq; [done|].
  apply Forall_cons in Hnq as [Hobj Hall].
  rewrite find_exceptions_cons, IH by done.
  by apply step_lookup_ne.
Qed.

Lemma find_exceptions_last_seen pre c post m code :
  qualifies c code → none_qualifies code post →
  ∃ r, _find_exceptions (pre ++ AttrClass c :: post) m !! code = Some r
       ∧ issubclass c r = true.
Proof.
  intros Hq Hpost. rewrite find_exceptions_app, find_exceptions_cons.
  rewrite (find_exceptions_lookup_ne _ _ _ Hpost).
  by apply step_registers.
Qed.

Lemma find_exceptions_registers all m code :
  some_qualifies code all →
  is_Some (_find_exceptions all m !! code).
Proof.
  intros Hex. apply Exists_exists in Hex as (obj & Hin & Hq).
  destruct obj as [c|repr]; [|done]. simpl in Hq.
  apply list_elem_of_split in Hin as (pre & post & ->).
  rewrite find_exceptions_app, find_exceptions_cons.
  apply find_exceptions_is_Some.
  destruct (step_registers (_find_exceptions pre m) c code Hq) as (r & -> & _).
  by eexists.
Qed.

Lemma step_origin m obj code r :
  find_exceptions_step m obj !! code = Some r →
  m !! code = Some r ∨ (obj = AttrClass r ∧ qualifies r code).
Proof.
  destruct obj as [c|repr]; [|by left].
  unfold find_exceptions_step.
  destruct (mem_HTTPException c) eqn:Hhttp; [|by left]. simpl.
  destruct (status_code c) as [code'|] eqn:Hcode; [|by left].
  assert (<[ code' := c ]> m !! code = Some r →
          m !! code = Some r ∨ (AttrClass c = AttrClass r ∧ qualifies r code))
    as Hins.
  { rewrite lookup_insert. case_decide as Heq; [|by left].
    intros [= <-]. subst. right. by repeat split. }
  destruct (m !! code') as [old|]; [destruct (issubclass c old)|];
    first [by left | by apply Hins].
Qed.

Lemma find_exceptions_origin all m code r :
  _find_exceptions all m !! code = Some r →
  m !! code = Some r ∨ (AttrClass r ∈ all ∧ qualifies r code).
Proof.
  revert m. induction all as [|obj all IH]; intros m; [by left|].
  rewrite find_exceptions_cons. intros Hr.
  destruct (IH _ Hr) as [Hstep | [Hin Hq]].
  - destruct (step_origin _ _ _ _ Hstep) as [Hm | [-> Hq]]; [by left|].
    right. split; [by left | done].
  - right. split; [by right | done].
Qed.

Lemma seed_lookup code c :
  exception_map_seed !! code = Some c ↔ code = 422 ∧ c = HTTPUnprocessableEntity.
Proof.
  unfold exception_map_seed. rewrite lookup_singleton. case_decide.
  - split; [by intros [= <-] | by intros [_ ->]].
  - split; [done | by intros [? _]].
Qed.

Lemma seed_keyed : keyed_by_status exception_map_seed.
Proof.
  intros code c. unfold exception_map_seed.
  rewrite lookup_singleton. case_decide; [|done].
  intros [= <-]. by subst.
Qed.

(** C4, as amended: the table starts as 422 -> the dedicated Unprocessable
    Entity type; the scan files a type that is an HTTP exception with a
    concrete status code under that code unless the type already filed
    there is that type or one of its base classes, and otherwise replaces
    the entry; so the entry a code ends with is the last such type
    enumerated for it, or a base class of that type. *)
Theorem find_exceptions_keeps_registered_base
    (pre post : list module_attr) (c : PyClass) (m : gmap Z PyClass) (code : Z) :
  qualifies c code →
  none_qualifies code post →
  exception_map_seed !! 422 = Some HTTPUnprocessableEntity
  ∧ find_exceptions_step m (AttrClass c) =
      match m !! code with
      | Some old_obj => if issubclass c old_obj then m else <[ code := c ]> m
      | None => <[ code := c ]> m
      end
  ∧ ∃ r, _find_exceptions (pre ++ AttrClass c :: post) m !! code = Some r
         ∧ issubclass c r = true.
Proof.
  intros Hq Hpost. split; [done|]. split.
  - by apply step_qualifying.
  - by apply find_exceptions_last_seen.
Qed.

Lemma find_exceptions_keeps_registered_base_witness :
  find_exceptions_step {[ 400 := Sample.HTTPBadRequest ]}
                       (AttrClass Sample.HTTPMalformedBody)
  = {[ 400 := Sample.HTTPBadRequest ]}
  ∧ ∃ r, _find_exceptions Sample.layered exception_map_seed !! 400 = Some r
         ∧ issubclass Sample.HTTPMalformedBody r = true.
Proof.
  assert (qualifies Sample.HTTPMalformedBody 400) as Hq by (by split).
  assert (none_qualifies 400 []) as Hpost by constructor.
  split.
  - exact (proj1 (proj2 (find_exceptions_keeps_registered_base
                           [] [] _ {[ 400 := Sample.HTTPBadRequest ]} 400 Hq Hpost))).
  - exact (proj2 (proj2 (find_exceptions_keeps_registered_base
                           [AttrClass Sample.HTTPBadRequest] [] _
                           exception_map_seed 400 Hq Hpost))).
Defined.

(** C4, as stated, fails: with a base class and a subclass of the same
    status code enumerated in that order, the table ends with the base
    class, although the subclass was seen and is more specific; and a
    subclass that is registered already is replaced by its base class. *)
Lemma find_exceptions_not_most_specific :
  ¬ maps_to_most_specific
      Sample.layered (_find_exceptions Sample.layered exception_map_seed)
  ∧ find_exceptions_step {[ 400 := Sample.HTTPMalformedBody ]}
                         (AttrClass Sample.HTTPBadRequest) !! 400
    = Some Sample.HTTPBadRequest.
Proof.
  split; [|reflexivity].
  intros Hclaim.
  specialize (Hclaim Sample.HTTPMalformedBody 400 Sample.HTTPBadRequest).
  discriminate Hclaim.
  - apply list_elem_of_In. right. by left.
  - by split.
  - reflexivity.
  - reflexivity.
Qed.

Section Properties.

Context `{Framework}.

Lemma exception_map_keyed : keyed_by_status exception_map.
Proof. apply find_exceptions_keyed, seed_keyed. Qed.

Lemma exception_map_default :
  ∃ c, exception_map !! DEFAULT_VALIDATION_STATUS = Some c
       ∧ status_code c = Some 422.
Proof.
  destruct (find_exceptions_is_Some web_exceptions_all exception_map_seed 422)
    as [c Hc]; [by eexists|].
  exists c. split; [done|]. by apply exception_map_keyed.
Qed.

Lemma exception_map_provided code :
  provides_status code →
  ∃ c, exception_map !! code = Some c ∧ status_code c = Some code.
Proof.
  intros Hprov.
  destruct (find_exceptions_registers _ exception_map_seed code Hprov) as [c Hc].
  exists c. split; [done|]. by apply exception_map_keyed.
Qed.

Lemma exception_map_keyword_only code c :
  keyword_only code → exception_map !! code = Some c → init_positional c = [].
Proof.
  intros Hkw Hc.
  destruct (find_exceptions_origin _ _ _ _ Hc) as [Hseed | [Hin Hq]].
  - by apply seed_lookup in Hseed as [_ ->].
  - unfold keyword_only in Hkw. rewrite Forall_forall in Hkw.
    by apply (Hkw (AttrClass c)).
Qed.

Lemma instantiate_keyword error_class body hdrs ctype :
  init_positional error_class = [] →
  instantiate error_class body hdrs ctype =
  HTTPError (mkHTTPError error_class body hdrs ctype).
Proof. intros Hinit. unfold instantiate. by rewrite Hinit. Qed.

(** ** The error handlers *)

(** C10: once the scan has run the table has an entry for 422, and, the
    framework exporting an HTTP exception of status 400, one for 400; so
    the lookup in [_handle_invalid_json_error] succeeds and the function
    raises what constructing that type of status 400 gives, whatever the
    request and state: the HTTP error, the framework's types for 400
    being constructed from keyword arguments. *)
Theorem invalid_json_error_always_raises :
  provides_status 400 →
  is_Some (exception_map !! 400)
  ∧ is_Some (exception_map !! 422)
  ∧ ∃ error_class,
      exception_map !! 400 = Some error_class
      ∧ status_code error_class = Some 400
      ∧ (∀ (A : Type) req st,
          @_handle_invalid_json_error _ A req st =
          (Raise (instantiate error_class
                              (encode_utf8 (json_dumps invalid_json_messages))
                              None
                              "application/json"), st))
      ∧ (keyword_only 400 →
         ∀ (A : Type) req st,
          @_handle_invalid_json_error _ A req st =
          (Raise (HTTPError
                    (mkHTTPError error_class
                                 (encode_utf8 (json_dumps invalid_json_messages))
                                 None
                                 "application/json")), st)).
Proof.
  intros Hprov.
  destruct (exception_map_provided 400 Hprov) as (c & Hc & Hstatus).
  destruct exception_map_default as (d & Hd & _).
  split; [by eexists|]. split; [by eexists|].
  exists c. split; [done|]. split; [done|]. split.
  - intros A req st. unfold _handle_invalid_json_error. by rewrite Hc.
  - intros Hkw A req st. unfold _handle_invalid_json_error. rewrite Hc.
    by rewrite instantiate_keyword by by apply (exception_map_keyword_only 400).
Qed.

(** C3, as amended: for every validation failure and every status other
    than the integer 0 whose types the framework constructs from keyword
    arguments alone, [handle_error] never returns; it raises the type the
    table holds for the status (for 422 when no status is passed) with
    the JSON-encoded messages as body, the given headers and content type
    application/json, and raises a lookup error when the table has no
    entry for the status. *)
Theorem handle_error_raises (A : Type) error req schema
    (error_status_code : option Z) error_headers st :
  error_status_code ≠ Some 0 →
  keyword_only (default DEFAULT_VALIDATION_STATUS error_status_code) →
  (∀ a st', @handle_error _ A error req schema error_status_code error_headers st
            ≠ (Ok a, st'))
  ∧ handle_error_as_stated A error req schema error_status_code error_headers st.
Proof.
  intros Hnz Hkw.
  assert (status_or error_status_code DEFAULT_VALIDATION_STATUS
          = default DEFAULT_VALIDATION_STATUS error_status_code) as Hstatus.
  { destruct error_status_code as [n|]; [|done]. simpl.
    destruct (Z.eqb_spec n 0) as [->|]; [by destruct Hnz | done]. }
  split.
  - intros a st'. unfold handle_error.
    by destruct (exception_map !! _).
  - unfold handle_error_as_stated, handle_error. rewrite Hstatus.
    destruct (exception_map !! _) as [c|] eqn:Hc; [|done].
    by rewrite instantiate_keyword by by apply (exception_map_keyword_only _ _ Hkw).
Qed.

(** C9: a falsy status ([None] or 0) makes [handle_error] consult the
    table under 422; that entry always exists, so what is raised is what
    constructing that type gives and never the lookup error, whatever
    the table holds for 0; it is the HTTP error of that type, the types
    for 422 being constructed from keyword arguments. *)
Theorem handle_error_falsy_status (A : Type) error req schema
    (error_status_code : option Z) error_headers st :
  error_status_code = None ∨ error_status_code = Some 0 →
  status_or error_status_code DEFAULT_VALIDATION_STATUS = 422
  ∧ ∃ error_class,
      exception_map !! 422 = Some error_class
      ∧ @handle_error _ A error req schema error_status_code error_headers st =
        (Raise (instantiate error_class
                            (encode_utf8 (json_dumps (messages error)))
                            error_headers
                            "application/json"), st)
      ∧ (∀ msg status st',
           @handle_error _ A error req schema error_status_code error_headers st
           ≠ (Raise (LookupError msg status), st'))
      ∧ (keyword_only 422 →
         @handle_error _ A error req schema error_status_code error_headers st =
         (Raise (HTTPError
                   (mkHTTPError error_class
                                (encode_utf8 (json_dumps (messages error)))
                                error_headers
                                "application/json")), st)).
Proof.
  intros Hfalsy.
  assert (status_or error_status_code DEFAULT_VALIDATION_STATUS = 422) as Hstatus.
  { by destruct Hfalsy as [-> | ->]. }
  split; [done|].
  destruct exception_map_default as (c & Hc & _).
  exists c. split; [done|].
  unfold handle_error. rewrite Hstatus.
  unfold DEFAULT_VALIDATION_STATUS in Hc. rewrite Hc.
  split; [done|]. split.
  - intros msg status st'. unfold instantiate.
    by destruct (init_positional c).
  - intros Hkw.
    by rewrite instantiate_keyword by by apply (exception_map_keyword_only 422).
Qed.

(** ** The loaders, equation by equation *)

Ltac run_parser :=
  unfold load_json, load_form, load_json_or_form, mbind, M_bind, bind,
    mret, M_ret, ret, raise, cache_get, cache_getitem, cache_setitem, await;
  cbv beta iota.

Lemma handle_invalid_json_error_state (A : Type) req st :
  (@_handle_invalid_json_error _ A req st).2 = st
  ∧ ∀ a, (@_handle_invalid_json_error _ A req st).1 ≠ Ok a.
Proof.
  unfold _handle_invalid_json_error.
  by destruct (exception_map !! 400).
Qed.

Lemma load_json_cached req schema st v :
  cache st !! "json" = Some v → is_None v = false →
  load_json req schema st = (Ok v, st).
Proof.
  intros Hc Hv. run_parser. rewrite Hc. cbn [default from_option id].
  by rewrite Hv.
Qed.

Lemma load_json_uncached req schema st :
  is_None (default PyNone (cache st !! "json")) = true →
  load_json req schema st =
    if negb (body_exists req && is_json_request req) then (Ok PMissing, st)
    else
      let st1 := mkState (cache st) (ReadJson :: io_log st) in
      match req_json req with
      | JsonValue j =>
          (Ok (PJson j),
           mkState (<[ "json" := PJson j ]> (cache st)) (ReadJson :: io_log st))
      | JSONDecodeError doc =>
          if String.eqb doc "" then (Ok PMissing, st1)
          else _handle_invalid_json_error req st1
      | UnicodeDecodeError => _handle_invalid_json_error req st1
      | ReadError e => (Raise e, st1)
      end.
Proof.
  intros Hc. run_parser. rewrite Hc.
  destruct (negb (body_exists req && is_json_request req)); [done|].
  cbn [cache io_log].
  destruct (req_json req) as [j|doc| |e]; [done| |done..].
  by destruct (String.eqb doc "").
Qed.

Lemma load_form_cached req schema st v :
  cache st !! "post" = Some v → is_None v = false →
  load_form req schema st = (Ok (PProxy v schema), st).
Proof.
  intros Hc Hv. run_parser. rewrite Hc. cbn [default from_option id].
  by rewrite Hv, Hc.
Qed.

Lemma load_form_uncached req schema st :
  cache st !! "post" = None →
  load_form req schema st =
    (Ok (PProxy (PMultiDict (post req)) schema),
     mkState (<[ "post" := PMultiDict (post req) ]> (cache st))
             (ReadPost :: io_log st)).
Proof.
  intros Hc. run_parser. rewrite Hc. cbn [default from_option id PyNone is_None cache io_log].
  by rewrite lookup_insert_eq.
Qed.

Lemma load_json_or_form_unfold req schema st :
  load_json_or_form req schema st =
    match load_json req schema st with
    | (Ok data, st') =>
        if negb (is_missing data) then (Ok data, st')
        else load_form req schema st'
    | (Raise e, st') => (Raise e, st')
    end.
Proof.
  unfold load_json_or_form, mbind, M_bind, bind.
  destruct (load_json req schema st) as [[data|e] st']; [|done].
  by destruct (negb (is_missing data)).
Qed.

(** ** What a request's cache can hold *)

Lemma reads_cons_same ev c l :
  reads ev (mkState c (ev :: l)) = S (reads ev (mkState c l)).
Proof. unfold reads. simpl. by rewrite filter_cons_True. Qed.

Lemma reads_cons_other ev ev' c l :
  ev' ≠ ev → reads ev (mkState c (ev' :: l)) = reads ev (mkState c l).
Proof. intros Hne. unfold reads. simpl. by rewrite filter_cons_False. Qed.

Lemma reads_cache ev c c' l : reads ev (mkState c l) = reads ev (mkState c' l).
Proof. reflexivity. Qed.

Lemma load_json_state req schema st :
  (load_json req schema st).2 = st
  ∨ ((load_json req schema st).2 = mkState (cache st) (ReadJson :: io_log st)
     ∧ ∀ j, req_json req ≠ JsonValue j)
  ∨ ∃ j, req_json req = JsonValue j
         ∧ body_exists req && is_json_request req = true
         ∧ is_None (default PyNone (cache st !! "json")) = true
         ∧ (load_json req schema st).2 =
           mkState (<[ "json" := PJson j ]> (cache st)) (ReadJson :: io_log st).
Proof.
  destruct (is_None (default PyNone (cache st !! "json"))) eqn:Hnone.
  - rewrite load_json_uncached by done.
    destruct (body_exists req && is_json_request req) eqn:Hguard; [|by left].
    cbn [negb]. cbv zeta.
    destruct (req_json req) as [j|doc| |e] eqn:Hread.
    + right. right. by exists j.
    + right. left. split; [|done].
      destruct (String.eqb doc ""); [done|].
      apply handle_invalid_json_error_state.
    + right. left. split; [|done].
      apply handle_invalid_json_error_state.
    + right. left. by split.
  - left. destruct (cache st !! "json") as [v|] eqn:Hc; [|done].
    by rewrite (load_json_cached _ _ _ v).
Qed.

Lemma load_form_state req schema st :
  post_cache_ok req st →
  load_form req schema st =
    (Ok (PProxy (PMultiDict (post req)) schema),
     if bool_decide (cache st !! "post" = None)
     then mkState (<[ "post" := PMultiDict (post req) ]> (cache st))
                  (ReadPost :: io_log st)
     else st).
Proof.
  intros [[Hc _] | [Hc _]].
  - rewrite load_form_uncached by done.
    by rewrite bool_decide_eq_true_2.
  - rewrite (load_form_cached _ _ _ _ Hc) by done.
    rewrite bool_decide_eq_false_2; [done|]. by rewrite Hc.
Qed.

Lemma fresh_inv req : cache_inv req fresh.
Proof.
  split; [by left|]. split; [by left|].
  intros j _ _. by left.
Qed.

Lemma load_json_inv req schema st :
  cache_inv req st → cache_inv req (load_json req schema st).2.
Proof.
  intros (Hj & Hp & Ho).
  destruct (load_json_state req schema st)
    as [-> | [[-> Hfail] | (j & Hread & Hguard & Hnone & ->)]]; [done| |];
    unfold cache_inv, json_cache_ok, post_cache_ok, json_read_once;
    cbn [cache].
  - split; [done|]. split.
    + destruct Hp as [[? ?]|[? ?]]; [left|right];
        by rewrite reads_cons_other.
    + intros j Hread. by destruct (Hfail j).
  - split; [|split].
    + right. exists j. by rewrite lookup_insert_eq.
    + destruct Hp as [[? ?]|[? ?]]; [left|right];
        by rewrite lookup_insert_ne, reads_cons_other.
    + intros j' Hread' Hnn. rewrite Hread in Hread'. injection Hread' as <-.
      right. rewrite lookup_insert_eq, reads_cons_same. split; [done|].
      destruct (Ho j Hread Hnn) as [[_ Hzero] | [Hc _]].
      * by rewrite (reads_cache _ _ (cache st)), <- Hzero; destruct st.
      * rewrite Hc in Hnone. by destruct j.
Qed.

Lemma load_form_inv req schema st :
  cache_inv req st → cache_inv req (load_form req schema st).2.
Proof.
  intros (Hj & Hp & Ho). rewrite load_form_state by done.
  case_bool_decide as Hc; [|done]. cbn [snd].
  assert (reads ReadPost st = 0%nat) as Hzero.
  { destruct Hp as [[_ ?]|[Hc' _]]; [done|]. by rewrite Hc in Hc'. }
  unfold cache_inv, json_cache_ok, post_cache_ok, json_read_once;
    cbn [cache].
  split; [|split].
  - destruct Hj as [?|(j & ? & ? & ?)]; [left|right; exists j];
      by rewrite lookup_insert_ne.
  - right. rewrite lookup_insert_eq, reads_cons_same. split; [done|].
    by rewrite (reads_cache _ _ (cache st)), <- Hzero; destruct st.
  - intros j Hread Hnn.
    destruct (Ho j Hread Hnn) as [[? ?]|[? ?]]; [left|right];
      by rewrite lookup_insert_ne, reads_cons_other.
Qed.

Lemma load_json_or_form_state req schema st :
  (load_json_or_form req schema st).2 = (load_json req schema st).2
  ∨ (load_json_or_form req schema st).2 =
    (load_form req schema (load_json req schema st).2).2.
Proof.
  rewrite load_json_or_form_unfold.
  destruct (load_json req schema st) as [[data|e] st']; [|by left].
  destruct (negb (is_missing data)); [by left | by right].
Qed.

Lemma load_location_inv loc req schema st :
  cache_inv req st → cache_inv req (load_location loc req schema st).2.
Proof.
  intros Hinv. destruct loc; try done; simpl.
  - by apply load_form_inv.
  - by apply load_json_inv.
  - destruct (load_json_or_form_state req schema st) as [-> | ->].
    + by apply load_json_inv.
    + by apply load_form_inv, load_json_inv.
Qed.

Lemma run_loads_inv locs req schema st :
  cache_inv req st → cache_inv req (run_loads locs req schema st).
Proof.
  revert st. induction locs as [|loc locs IH]; intros st Hinv; [done|].
  simpl. by apply IH, load_location_inv.
Qed.

Lemma json_uncached_unless_decoded req st :
  cache_inv req st →
  (∀ j, body_exists req && is_json_request req = true →
        req_json req ≠ JsonValue j) →
  cache st !! "json" = None.
Proof.
  intros ([Hc | (j & Hguard & Hread & _)] & _) Hfail; [done|].
  by destruct (Hfail j Hguard).
Qed.

(** ** The JSON and form loaders *)


(** C5: [load_json_or_form] loads JSON first; when that load returns the
    missing sentinel, the result is that of the form loader run next; any
    other JSON result, and any error, is passed on as it is, the form not
    being loaded.  A request whose content type is not JSON yields the
    proxy over its form fields. *)
Theorem load_json_or_form_falls_back locs req schema st :
  (∀ st', load_json req schema st = (Ok PMissing, st') →
          load_json_or_form req schema st = load_form req schema st')
  ∧ (∀ data st', load_json req schema st = (Ok data, st') → data ≠ PMissing →
                 load_json_or_form req schema st = (Ok data, st'))
  ∧ (∀ e st', load_json req schema st = (Raise e, st') →
              load_json_or_form req schema st = (Raise e, st'))
  ∧ (is_json (content_type req) = false →
     ∃ st', load_json_or_form req schema (run_loads locs req schema fresh) =
            (Ok (PProxy (PMultiDict (post req)) schema), st')).
Proof.
  repeat split.
  - intros st' Hload. by rewrite load_json_or_form_unfold, Hload.
  - intros data st' Hload Hdata. rewrite load_json_or_form_unfold, Hload.
    by destruct data.
  - intros e st' Hload. by rewrite load_json_or_form_unfold, Hload.
  - intros Hjson. set (st0 := run_loads locs req schema fresh).
    assert (cache_inv req st0) as Hinv by apply run_loads_inv, fresh_inv.
    assert (cache st0 !! "json" = None) as Hc.
    { apply (json_uncached_unless_decoded req); [done|].
      intros j Hguard _. apply andb_prop in Hguard as [_ Hguard].
      unfold is_json_request in Hguard. congruence. }
    rewrite load_json_or_form_unfold.
    rewrite load_json_uncached by (by rewrite Hc).
    unfold is_json_request. rewrite Hjson, andb_false_r. cbn [negb is_missing].
    rewrite load_form_state by apply Hinv. by eexists.
Qed.

(** C2, as amended: over any sequence of loads from one request, the form
    body is read at most once, and so is a JSON body that decodes to a
    document other than null: the cache holds the value from the read on,
    and a load that finds it there returns it with no further read.  A
    JSON load that ends in the missing sentinel leaves no cache entry, and
    the next load reads the body again. *)
Theorem body_reads_cached locs req schema :
  let st := run_loads locs req schema fresh in
  (reads ReadPost st ≤ 1)%nat
  ∧ post_cache_ok req st
  ∧ (∀ j, req_json req = JsonValue j → j ≠ JNull → (reads ReadJson st ≤ 1)%nat)
  ∧ json_read_once req st
  ∧ (∀ j, cache st !! "json" = Some (PJson j) → j ≠ JNull →
          load_json req schema st = (Ok (PJson j), st))
  ∧ (∀ d, cache st !! "post" = Some d →
          load_form req schema st = (Ok (PProxy d schema), st))
  ∧ (body_exists req && is_json_request req = true →
     req_json req = JSONDecodeError "" →
     load_json req schema st =
     (Ok PMissing, mkState (cache st) (ReadJson :: io_log st))).
Proof.
  intros st.
  assert (cache_inv req st) as Hinv by apply run_loads_inv, fresh_inv.
  destruct Hinv as (Hj & Hp & Ho).
  split; [|split; [done|]]; [|split; [|split; [done|]]]; [| |repeat split].
  - destruct Hp as [[_ ->]|[_ ->]]; lia.
  - intros j Hread Hnn. destruct (Ho j Hread Hnn) as [[_ ->]|[_ ->]]; lia.
  - intros j Hc Hnn. apply load_json_cached; [done|]. by destruct j.
  - intros d Hc. destruct Hp as [[Hc' _]|[Hc' _]]; rewrite Hc in Hc'; [done|].
    injection Hc' as ->. by apply load_form_cached.
  - intros Hguard Hread.
    assert (cache st !! "json" = None) as Hc.
    { apply (json_uncached_unless_decoded req); [done|].
      intros j _. by rewrite Hread. }
    rewrite load_json_uncached by (by rewrite Hc).
    by rewrite Hguard, Hread.
Qed.

(** ** Loaders without state *)

(** C8: loading from the location [files] raises [NotImplementedError]
    with a message that points to [load_form]; it returns no value. *)
Theorem load_files_not_implemented req schema st :
  load_files req schema st = (Raise (NotImplementedError load_files_message), st)
  ∧ load_location LFiles req schema st = load_files req schema st
  ∧ (∀ v st', load_files req schema st ≠ (Ok v, st'))
  ∧ is_Some (String.index 0 "load_form" load_files_message).
Proof.
  repeat split; [done|].
  by eexists.
Qed.

(** ** Query arguments *)

Lemma parse_query schema req st :
  parse schema req LQuery st =
  (Ok (map_imap
         (λ name _, proxy_lookup (PProxy (PMultiDict (query req)) schema) name)
         schema), st).
Proof. reflexivity. Qed.

(** C6: [parse] with location [query] binds a field the schema declares
    scalar to the single value submitted for its key and a field declared
    list-typed to all values submitted for the key, in order; whether a
    bound value is a string or a list follows from the declaration alone. *)
Theorem parse_query_by_multiplicity (schema : Schema) req st name :
  ∃ args : gmap string pyobj,
    parse schema req LQuery st = (Ok args, st)
    ∧ (∀ v, schema !! name = Some Scalar → getall name (query req) = [v] →
            args !! name = Some (PJson (JStr v)))
    ∧ (schema !! name = Some Many → getall name (query req) ≠ [] →
       args !! name = Some (PJson (JArr (JStr <$> getall name (query req)))))
    ∧ (∀ value, args !! name = Some value →
         match schema !! name with
         | Some Many => value = PJson (JArr (JStr <$> getall name (query req)))
         | _ => ∃ v, value = PJson (JStr v)
         end).
Proof.
  eexists. split; [apply parse_query|].
  rewrite map_lookup_imap. unfold proxy_lookup.
  repeat split.
  - intros v -> ->. reflexivity.
  - intros -> Hvs. cbn [mbind option_bind].
    by destruct (getall name (query req)).
  - intros value. destruct (schema !! name) as [[|]|]; cbn [mbind option_bind].
    + destruct (getall name (query req)); [done|]. intros [= <-]. by eexists.
    + destruct (getall name (query req)); [done|]. by intros [= <-].
    + done.
Qed.

(** ** The request among the handler's arguments *)

Lemma find_request_skip (pre rest : list pyarg) :
  forallb is_other pre = true →
  find_request (pre ++ rest)%list = find_request rest.
Proof.
  induction pre as [|a pre IH]; [done|]. simpl.
  intros [Ha Hpre]%andb_prop. destruct a; try done; by apply IH.
Qed.

Lemma find_request_elem args r :
  find_request args = Some r →
  ArgRequest r ∈ args ∨ ∃ v, ArgView v ∈ args ∧ request v = r.
Proof.
  induction args as [|a args IH]; [done|]. simpl.
  assert (find_request args = Some r →
          ArgRequest r ∈ a :: args
          ∨ ∃ v, ArgView v ∈ a :: args ∧ request v = r) as Hrest.
  { intros Hfind. destruct (IH Hfind) as [Hin | (v & Hin & Hv)].
    - left. by right.
    - right. exists v. split; [by right | done]. }
  destruct a as [r'|v|repr|r'].
  - intros [= ->]. left. by left.
  - intros [= <-]. right. exists v. split; [by left | done].
  - done.
  - done.
Qed.

Lemma find_request_drop (pre post : list pyarg) a :
  is_other a = true →
  find_request (pre ++ a :: post)%list = find_request (pre ++ post)%list.
Proof.
  intros Ha. induction pre as [|b pre IH]; simpl.
  - by destruct a.
  - by destruct b.
Qed.

(** C7, as amended: the request is found by the class of the arguments,
    wherever it stands among the positional ones: behind any number of
    arguments that are neither a request nor a view, a request argument
    is returned itself and a view gives its [request]; an object of
    another class is passed over even when it has a [request] attribute;
    arguments of other kinds alone raise the error, and what is returned
    always comes from a request or a view argument. *)
Theorem get_request_from_view_args_by_kind view (args : list pyarg) kwargs :
  (∀ (pre : list pyarg) r post,
      args = (pre ++ ArgRequest r :: post)%list → forallb is_other pre = true →
      get_request_from_view_args view args kwargs = Ok r)
  ∧ (∀ (pre : list pyarg) v post,
      args = (pre ++ ArgView v :: post)%list → forallb is_other pre = true →
      get_request_from_view_args view args kwargs = Ok (request v))
  ∧ (∀ (pre : list pyarg) r post,
      args = (pre ++ ArgWithRequest r :: post)%list →
      get_request_from_view_args view args kwargs =
      get_request_from_view_args view (pre ++ post)%list kwargs)
  ∧ (forallb is_other args = true →
      get_request_from_view_args view args kwargs =
      Raise (ValueError "Request argument not found for handler"))
  ∧ (∀ r, get_request_from_view_args view args kwargs = Ok r →
      ArgRequest r ∈ args ∨ ∃ v, ArgView v ∈ args ∧ request v = r).
Proof.
  unfold get_request_from_view_args. repeat split.
  - intros pre r post -> Hpre. by rewrite find_request_skip.
  - intros pre v post -> Hpre. by rewrite find_request_skip.
  - intros pre r post ->. by rewrite find_request_drop.
  - intros Hall. rewrite <- (app_nil_r args).
    by rewrite find_request_skip.
  - intros r. destruct (find_request args) as [r'|] eqn:Hfind; [|done].
    intros [= ->]. by apply find_request_elem.
Qed.

End Properties.

(** * The theorems on the sample framework *)

(** C2, as stated, fails: loading [json_or_form] and then [json] from a
    JSON request with an empty body awaits the body read twice; and a
    body that decodes to null is read again although its read succeeded. *)
Lemma json_body_read_twice :
  ¬ (reads ReadJson
       (@run_loads Sample.framework [LJsonOrForm; LJson]
                   (Sample.json_request (Some "")) ∅ fresh) ≤ 1)%nat
  ∧ (@load_json Sample.framework (Sample.json_request (Some "null")) ∅ fresh).1
    = Ok (PJson JNull)
  ∧ ¬ (reads ReadJson
         (@run_loads Sample.framework [LJson; LJson]
                     (Sample.json_request (Some "null")) ∅ fresh) ≤ 1)%nat.
Proof.
  repeat split.
  - vm_compute. lia.
  - vm_compute. lia.
Qed.

(** C3, as stated, fails: with status 0 and a table without an entry for
    0, [handle_error] raises the HTTP error filed under 422 where a
    lookup error is described; and for a status whose type has
    constructor parameters that must be passed by position, building the
    error raises a type error instead of that HTTP error. *)
Lemma handle_error_status_zero :
  ¬ @handle_error_as_stated Sample.framework pyobj Sample.failure
      Sample.form_request ∅ (Some 0) None fresh
  ∧ ¬ @handle_error_as_stated MoreSamples.framework pyobj Sample.failure
        Sample.form_request ∅ (Some 405) None fresh.
Proof.
  split.
  - unfold handle_error_as_stated.
    replace (@exception_map Sample.framework
               !! default DEFAULT_VALIDATION_STATUS (Some 0))
      with (@None PyClass) by reflexivity.
    vm_compute. discriminate.
  - unfold handle_error_as_stated.
    replace (@exception_map MoreSamples.framework
               !! default DEFAULT_VALIDATION_STATUS (Some 405))
      with (Some MoreSamples.HTTPMethodNotAllowed) by reflexivity.
    vm_compute. discriminate.
Qed.

(** C7, as stated, fails: an argument that has a [request] attribute but
    is neither a request nor a view is passed over, and the lookup ends
    in the error. *)
Lemma request_attribute_not_recognised :
  ¬ located_by_capability "on_get"
      [ArgWithRequest Sample.query_request; ArgOther "args"] [].
Proof.
  unfold located_by_capability. vm_compute. discriminate.
Qed.

Lemma sample_provides_400 : @provides_status Sample.framework 400.
Proof. compute_done. Defined.

Lemma sample_keyword_only code : @keyword_only Sample.framework code.
Proof.
  unfold keyword_only. simpl. repeat constructor.
Defined.


Lemma body_reads_cached_witness :
  let st := @run_loads Sample.framework [LJsonOrForm; LJson; LForm]
                       (Sample.json_request (Some "{}")) ∅ fresh in
  (reads ReadPost st ≤ 1)%nat
  ∧ (reads ReadJson st ≤ 1)%nat
  ∧ @load_json Sample.framework (Sample.json_request (Some "{}")) ∅ st
    = (Ok (PJson (JObj [])), st).
Proof.
  intros st.
  destruct (@body_reads_cached Sample.framework [LJsonOrForm; LJson; LForm]
              (Sample.json_request (Some "{}")) ∅)
    as (Hpost & _ & Hjson & _ & Hcached & _).
  split; [exact Hpost|]. split.
  - apply (Hjson (JObj [])); [reflexivity | discriminate].
  - apply (Hcached (JObj [])); [reflexivity | discriminate].
Defined.

Lemma handle_error_raises_witness :
  Some 404 ≠ Some 0
  ∧ @handle_error Sample.framework pyobj Sample.failure Sample.form_request ∅
      (Some 404) None fresh
    = (Raise (HTTPError
                (mkHTTPError Sample.HTTPNotFound
                   (encode_utf8 (Sample.dumps (messages Sample.failure)))
                   None "application/json")), fresh)
  ∧ @handle_error Sample.framework pyobj Sample.failure Sample.form_request ∅
      (Some 499) None fresh
    = (Raise (LookupError "No exception for {0}" (Some 499)), fresh).
Proof.
  assert (Some 404 ≠ Some 0) as H404 by discriminate.
  assert (Some 499 ≠ Some 0) as H499 by discriminate.
  split; [exact H404|]. split.
  - exact (proj2 (@handle_error_raises Sample.framework pyobj Sample.failure
                    Sample.form_request ∅ (Some 404) None fresh H404
                    (sample_keyword_only 404))).
  - exact (proj2 (@handle_error_raises Sample.framework pyobj Sample.failure
                    Sample.form_request ∅ (Some 499) None fresh H499
                    (sample_keyword_only 499))).
Defined.

Lemma load_json_or_form_falls_back_witness :
  @load_json_or_form Sample.framework Sample.form_request ∅ fresh
  = load_form Sample.form_request ∅ fresh
  ∧ @load_json_or_form Sample.framework (Sample.json_request (Some "{}")) ∅ fresh
    = @load_json Sample.framework (Sample.json_request (Some "{}")) ∅ fresh
  ∧ ∃ st', @load_json_or_form Sample.framework Sample.form_request ∅ fresh
           = (Ok (PProxy (PMultiDict [("name", "steve")]) ∅), st').
Proof.
  split; [|split].
  - apply (proj1 (@load_json_or_form_falls_back Sample.framework []
                    Sample.form_request ∅ fresh)).
    reflexivity.
  - apply (proj1 (proj2 (@load_json_or_form_falls_back Sample.framework []
                           (Sample.json_request (Some "{}")) ∅ fresh))
             (PJson (JObj []))).
    + reflexivity.
    + discriminate.
  - apply (proj2 (proj2 (proj2 (@load_json_or_form_falls_back Sample.framework []
                                  Sample.form_request ∅ fresh)))).
    reflexivity.
Defined.

Lemma parse_query_by_multiplicity_witness :
  (∃ args : gmap string pyobj,
      @parse Sample.framework Sample.hello_schema Sample.query_request LQuery fresh
      = (Ok args, fresh)
      ∧ args !! "name" = Some (PJson (JStr "steve")))
  ∧ (∃ args : gmap string pyobj,
      @parse Sample.framework Sample.hello_schema Sample.query_request LQuery fresh
      = (Ok args, fresh)
      ∧ args !! "tag" = Some (PJson (JArr [JStr "a"; JStr "b"]))).
Proof.
  split.
  - destruct (@parse_query_by_multiplicity Sample.framework Sample.hello_schema
                Sample.query_request fresh "name")
      as (args & Hparse & Hscalar & _).
    exists args. split; [exact Hparse|].
    apply Hscalar; reflexivity.
  - destruct (@parse_query_by_multiplicity Sample.framework Sample.hello_schema
                Sample.query_request fresh "tag")
      as (args & Hparse & _ & Hmany & _).
    exists args. split; [exact Hparse|].
    apply Hmany; [reflexivity | discriminate].
Defined.

Lemma get_request_from_view_args_by_kind_witness :
  get_request_from_view_args "on_get"
    [ArgOther "steve"; ArgRequest Sample.query_request; ArgOther "args"] []
  = Ok Sample.query_request
  ∧ get_request_from_view_args "on_get"
      [ArgWithRequest Sample.form_request; ArgRequest Sample.query_request] []
    = Ok Sample.query_request
  ∧ get_request_from_view_args "get"
      [ArgView {| request := Sample.form_request |}; ArgOther "args"] []
    = Ok Sample.form_request
  ∧ get_request_from_view_args "index" [ArgOther "steve"; ArgOther "args"] []
    = Raise (ValueError "Request argument not found for handler").
Proof.
  split; [|split; [|split]].
  - apply (proj1 (get_request_from_view_args_by_kind "on_get" _ [])
             [ArgOther "steve"] Sample.query_request [ArgOther "args"]);
      reflexivity.
  - apply (proj1 (get_request_from_view_args_by_kind "on_get" _ [])
             [ArgWithRequest Sample.form_request] Sample.query_request []);
      reflexivity.
  - apply (proj1 (proj2 (get_request_from_view_args_by_kind "get" _ []))
             [] {| request := Sample.form_request |} [ArgOther "args"]);
      reflexivity.
  - apply (proj1 (proj2 (proj2 (proj2
             (get_request_from_view_args_by_kind "index" _ []))))).
    reflexivity.
Defined.

Lemma load_files_not_implemented_witness :
  load_files Sample.form_request ∅ fresh
  = (Raise (NotImplementedError load_files_message), fresh).
Proof.
  exact (proj1 (@load_files_not_implemented Sample.framework
                  Sample.form_request ∅ fresh)).
Defined.

Lemma handle_error_falsy_status_witness :
  ∃ error_class,
    @exception_map Sample.framework !! 422 = Some error_class
    ∧ @handle_error Sample.framework pyobj Sample.failure Sample.form_request ∅
        (Some 0) None fresh
      = (Raise (HTTPError
                  (mkHTTPError error_class
                     (encode_utf8 (Sample.dumps (messages Sample.failure)))
                     None "application/json")), fresh).
Proof.
  destruct (proj2 (@handle_error_falsy_status Sample.framework pyobj
                     Sample.failure Sample.form_request ∅ (Some 0) None fresh
                     (or_intror eq_refl)))
    as (c & Hc & _ & _ & Hraise).
  exists c. split; [exact Hc|].
  exact (Hraise (sample_keyword_only 422)).
Defined.

Lemma invalid_json_error_always_raises_witness :
  @provides_status Sample.framework 400
  ∧ is_Some (@exception_map Sample.framework !! 400)
  ∧ is_Some (@exception_map Sample.framework !! 422)
  ∧ ∃ error_class,
      status_code error_class = Some 400
      ∧ @_handle_invalid_json_error Sample.framework pyobj Sample.form_request
          fresh
        = (Raise (HTTPError
                    (mkHTTPError error_class
                       (encode_utf8 (Sample.dumps invalid_json_messages))
                       None "application/json")), fresh).
Proof.
  split; [exact sample_provides_400|].
  destruct (@invalid_json_error_always_raises Sample.framework
              sample_provides_400)
    as (H400 & H422 & c & _ & Hstatus & _ & Hraise).
  split; [exact H400|]. split; [exact H422|].
  exists c. split; [exact Hstatus|].
  exact (Hraise (sample_keyword_only 400) pyobj Sample.form_request fresh).
Defined.

(** * Further properties of the module *)

Ltac unfold_loader :=
  unfold load_json, load_form, load_json_or_form, mbind, M_bind, bind,
    mret, M_ret, ret, raise, cache_get, cache_getitem, cache_setitem, await;
  cbv beta iota.

(** ** The scan *)

Lemma step_unconsidered m obj :
  considered obj = false → find_exceptions_step m obj = m.
Proof.
  destruct obj as [c|repr]; [|done]. simpl. unfold find_exceptions_step.
  destruct (mem_HTTPException c); [|done]. simpl.
  destruct (status_code c); [|done].
  rewrite bool_decide_eq_true_2; [done | by eexists].
Qed.

Lemma find_exceptions_dom all m code :
  is_Some (_find_exceptions all m !! code)
  ↔ is_Some (m !! code) ∨ some_qualifies code all.
Proof.
  split.
  - intros [r Hr].
    destruct (find_exceptions_origin _ _ _ _ Hr) as [Hm | [Hin Hq]].
    + left. by eexists.
    + right. apply Exists_exists. by exists (AttrClass r).
  - intros [Hm | Hq].
    + by apply find_exceptions_is_Some.
    + by apply find_exceptions_registers.
Qed.

(** X1: attributes that are not classes, classes outside the HTTP
    exception hierarchy and classes whose status code is [None] have no
    effect on the table: scanning the module gives the same table as
    scanning only the attributes the loop acts on. *)
Theorem find_exceptions_ignores_unconsidered all m :
  _find_exceptions (List.filter considered all) m = _find_exceptions all m.
Proof.
  revert m. induction all as [|obj all IH]; intros m; [done|].
  simpl List.filter. destruct (considered obj) eqn:Hobj.
  - by rewrite !find_exceptions_cons, IH.
  - by rewrite find_exceptions_cons, (step_unconsidered _ _ Hobj).
Qed.

Section TableProperties.

Context `{Framework}.

(** X2: every entry of the table built at import is an HTTP exception
    type filed under its own status code, and it is the seeded type under
    422 or a type the framework's module exports. *)
Theorem exception_map_entries code c :
  exception_map !! code = Some c →
  qualifies c code
  ∧ ((code = 422 ∧ c = HTTPUnprocessableEntity)
     ∨ AttrClass c ∈ web_exceptions_all).
Proof.
  intros Hc.
  destruct (find_exceptions_origin _ _ _ _ Hc) as [Hseed | [Hin Hq]].
  - apply seed_lookup in Hseed as [-> ->]. split; [by split | by left].
  - split; [done | by right].
Qed.

(** X3: the table has an entry for a status code exactly when the code is
    422 or the framework's module exports an HTTP exception type with
    that status code. *)
Theorem exception_map_domain code :
  is_Some (exception_map !! code) ↔ code = 422 ∨ provides_status code.
Proof.
  unfold exception_map, provides_status. rewrite find_exceptions_dom.
  split; (intros [Hseed | Hq]; [left | by right]).
  - destruct Hseed as [c Hc]. by apply seed_lookup in Hc as [-> _].
  - subst. by eexists.
Qed.

(** X4: when the framework's module exports no HTTP exception type with
    status 422, the table keeps the seeded Unprocessable Entity type
    under 422. *)
Theorem exception_map_keeps_seed :
  none_qualifies 422 web_exceptions_all →
  exception_map !! 422 = Some HTTPUnprocessableEntity.
Proof.
  intros Hnone. unfold exception_map.
  by rewrite find_exceptions_lookup_ne.
Qed.

End TableProperties.

Lemma find_exceptions_listed (listed all : list module_attr) m code :
  (∀ obj, obj ∈ all → obj ∈ listed) →
  (∃ r, m !! code = Some r ∧ AttrClass r ∈ listed) →
  ∃ r, _find_exceptions all m !! code = Some r ∧ AttrClass r ∈ listed.
Proof.
  intros Hsub (r & Hr & Hin).
  destruct (find_exceptions_is_Some all m code) as [r' Hr']; [by eexists|].
  exists r'. split; [done|].
  destruct (find_exceptions_origin _ _ _ _ Hr') as [Hm | [Hin' _]].
  - rewrite Hr in Hm. by injection Hm as <-.
  - by apply Hsub.
Qed.

Lemma find_exceptions_replaces all m code s :
  m !! code = Some s →
  (∃ c, AttrClass c ∈ all ∧ qualifies c code ∧ issubclass c s = false) →
  ∃ r, _find_exceptions all m !! code = Some r ∧ AttrClass r ∈ all.
Proof.
  revert m. induction all as [|obj all IH]; intros m Hs (c & Hin & Hq & Hsub).
  { by apply elem_of_nil in Hin. }
  rewrite find_exceptions_cons.
  destruct (step_is_Some m obj code) as [r1 Hr1]; [by eexists|].
  assert (AttrClass r1 ∈ obj :: all →
          ∃ r, _find_exceptions all (find_exceptions_step m obj) !! code = Some r
               ∧ AttrClass r ∈ obj :: all) as Hlisted.
  { intros Hin1. apply find_exceptions_listed; [by right | by exists r1]. }
  destruct (step_origin _ _ _ _ Hr1) as [Hm | [-> _]]; [|apply Hlisted; by left].
  rewrite Hs in Hm. injection Hm as <-.
  apply elem_of_cons in Hin as [<- | Hin].
  - rewrite (step_qualifying _ _ _ Hq), Hs, Hsub, lookup_insert_eq in Hr1.
    injection Hr1 as ->. apply Hlisted. by left.
  - destruct (IH (find_exceptions_step m obj) Hr1) as (r & Hr & Hrin).
    + by exists c.
    + exists r. split; [done | by right].
Qed.

Section ErrorProperties.

Context `{Framework}.

(** X5: when the framework's module exports an HTTP exception type with
    status 422 that does not derive from the seeded type, the entry under
    422 after the scan is a type of the framework's module. *)
Theorem exception_map_framework_422 :
  (∃ c, AttrClass c ∈ web_exceptions_all ∧ qualifies c 422
        ∧ issubclass c HTTPUnprocessableEntity = false) →
  ∃ r, exception_map !! 422 = Some r
       ∧ AttrClass r ∈ web_exceptions_all
       ∧ qualifies r 422.
Proof.
  intros Hex.
  destruct (find_exceptions_replaces web_exceptions_all exception_map_seed
              422 HTTPUnprocessableEntity) as (r & Hr & Hin); [done..|].
  exists r. split; [done|]. split; [done|].
  destruct (find_exceptions_origin _ _ _ _ Hr) as [Hseed | [_ Hq]]; [|done].
  by apply seed_lookup in Hseed as [_ ->].
Qed.

(** X6: [handle_error] leaves the parser state alone and its outcome is
    fixed by the status it looks up (the status passed, 422 for a falsy
    one): when that status is 422 or the framework exports an HTTP
    exception type for it, the registered type, of exactly that status
    code, is called with keyword arguments; that gives the HTTP error
    with the serialised messages, the given headers and content type
    application/json when the constructor has no parameters that must be
    passed by position, and a type error naming them when it has;
    otherwise the lookup error is raised. *)
Theorem handle_error_outcome (A : Type) error req schema
    (error_status_code : option Z) error_headers st :
  let code := status_or error_status_code DEFAULT_VALIDATION_STATUS in
  (code = 422 ∨ provides_status code →
   ∃ error_class,
     qualifies error_class code
     ∧ exception_map !! code = Some error_class
     ∧ @handle_error _ A error req schema error_status_code error_headers st =
       (Raise (match init_positional error_class with
               | [] =>
                   HTTPError
                     (mkHTTPError error_class
                                  (encode_utf8 (json_dumps (messages error)))
                                  error_headers
                                  "application/json")
               | missing => TypeError missing
               end), st))
  ∧ (code ≠ 422 → ¬ provides_status code →
     @handle_error _ A error req schema error_status_code error_headers st =
     (Raise (LookupError "No exception for {0}" error_status_code), st)).
Proof.
  intros code. unfold handle_error. fold code.
  pose proof (find_exceptions_dom web_exceptions_all exception_map_seed code)
    as Hdom.
  fold exception_map in Hdom. split.
  - intros Hcase.
    destruct (exception_map !! code) as [c|] eqn:Hc.
    + exists c. split; [|done].
      destruct (find_exceptions_origin _ _ _ _ Hc) as [Hseed | [_ Hq]]; [|done].
      by apply seed_lookup in Hseed as [-> ->].
    + destruct (proj2 Hdom) as [c' Hc']; [|done].
      destruct Hcase as [-> | Hprov]; [left; by eexists | by right].
  - intros Hne Hnp.
    destruct (exception_map !! code) as [c|] eqn:Hc; [|done].
    destruct (proj1 Hdom) as [[s Hs] | Hprov]; [by eexists | |done].
    by apply seed_lookup in Hs as [? _].
Qed.

(** X7: when the table has an entry for 400, the invalid-JSON handler
    raises what [handle_error] raises for the fixed message document with
    status 400 and no headers; when it has none, the handler fails with a
    key error where [handle_error] raises the lookup error. *)
Theorem invalid_json_error_as_handle_error (A : Type) req schema st :
  (is_Some (exception_map !! 400) →
   @_handle_invalid_json_error _ A req st =
   @handle_error _ A {| messages := invalid_json_messages |} req schema
                 (Some 400) None st)
  ∧ (exception_map !! 400 = None →
     @_handle_invalid_json_error _ A req st = (Raise (KeyError "400"), st)
     ∧ @handle_error _ A {| messages := invalid_json_messages |} req schema
                     (Some 400) None st =
       (Raise (LookupError "No exception for {0}" (Some 400)), st)).
Proof.
  unfold _handle_invalid_json_error, handle_error.
  change (status_or (Some 400) DEFAULT_VALIDATION_STATUS) with 400.
  split.
  - intros [c ->]. reflexivity.
  - intros ->. by split.
Qed.

End ErrorProperties.

(** ** The loaders on any state *)

Section LoaderProperties.

Context `{Framework}.

Lemma reads_log ev c l :
  reads ev (mkState c l) = length (filter (λ e, e = ev) l).
Proof. reflexivity. Qed.

Lemma reads_await_same ev st :
  reads ev (mkState (cache st) (ev :: io_log st)) = S (reads ev st).
Proof. unfold reads. cbn [io_log]. by rewrite filter_cons_True. Qed.

Lemma reads_await_other ev ev' c st :
  ev' ≠ ev → reads ev (mkState c (ev' :: io_log st)) = reads ev st.
Proof. intros Hne. unfold reads. cbn [io_log]. by rewrite filter_cons_False. Qed.

Lemma reads_set_cache ev c st : reads ev (mkState c (io_log st)) = reads ev st.
Proof. reflexivity. Qed.

Lemma load_form_any req schema st :
  load_form req schema st =
    if is_None (default PyNone (cache st !! "post"))
    then (Ok (PProxy (PMultiDict (post req)) schema),
          mkState (<[ "post" := PMultiDict (post req) ]> (cache st))
                  (ReadPost :: io_log st))
    else (Ok (PProxy (default PyNone (cache st !! "post")) schema), st).
Proof.
  unfold_loader.
  destruct (is_None (default PyNone (cache st !! "post"))) eqn:Hnone.
  - cbn [cache io_log]. by rewrite lookup_insert_eq.
  - destruct (cache st !! "post") as [v|] eqn:Hc; [done|].
    by cbn in Hnone.
Qed.

Lemma load_form_shape req schema st :
  (load_form req schema st).2 = st
  ∨ (load_form req schema st).2 =
    mkState (<[ "post" := PMultiDict (post req) ]> (cache st))
            (ReadPost :: io_log st).
Proof.
  rewrite load_form_any.
  destruct (is_None (default PyNone (cache st !! "post"))); [by right | by left].
Qed.

Lemma load_json_reads req schema st :
  reads ReadPost (load_json req schema st).2 = reads ReadPost st
  ∧ (reads ReadJson (load_json req schema st).2 = reads ReadJson st
     ∨ reads ReadJson (load_json req schema st).2 = S (reads ReadJson st)).
Proof.
  destruct (load_json_state req schema st)
    as [-> | [[-> _] | (j & _ & _ & _ & ->)]].
  - split; [done | by left].
  - split; [by apply reads_await_other | right; apply reads_await_same].
  - split; [by apply reads_await_other | right].
    by rewrite reads_log, <- (reads_await_same ReadJson st).
Qed.

Lemma load_form_reads req schema st :
  reads ReadJson (load_form req schema st).2 = reads ReadJson st
  ∧ (reads ReadPost (load_form req schema st).2 = reads ReadPost st
     ∨ reads ReadPost (load_form req schema st).2 = S (reads ReadPost st)).
Proof.
  destruct (load_form_shape req schema st) as [-> | ->].
  - split; [done | by left].
  - split; [by apply reads_await_other | right].
    by rewrite reads_log, <- (reads_await_same ReadPost st).
Qed.

Lemma load_json_or_form_reads req schema st ev :
  reads ev (load_json_or_form req schema st).2 = reads ev st
  ∨ reads ev (load_json_or_form req schema st).2 = S (reads ev st).
Proof.
  destruct (load_json_reads req schema st) as [Hjp Hjj].
  destruct (load_form_reads req schema (load_json req schema st).2) as [Hfj Hfp].
  destruct (load_json_or_form_state req schema st) as [-> | ->].
  - destruct ev; [done | by left].
  - destruct ev.
    + by rewrite Hfj.
    + by rewrite <- Hjp.
Qed.

Lemma load_location_reads loc req schema st ev :
  reads ev (load_location loc req schema st).2 = reads ev st
  ∨ reads ev (load_location loc req schema st).2 = S (reads ev st).
Proof.
  destruct loc; try by left.
  - destruct (load_form_reads req schema st) as [Hj Hp]. simpl.
    destruct ev; [by left | done].
  - destruct (load_json_reads req schema st) as [Hp Hj]. simpl.
    destruct ev; [done | by left].
  - apply load_json_or_form_reads.
Qed.

(** X8: [load_form] succeeds on every state (the indexing of the cache
    after the conditional read cannot fail), returns a proxy over the
    cached form data, and a second call returns the same proxy and
    changes nothing. *)
Theorem load_form_total_idempotent req schema st :
  ∃ data st1,
    load_form req schema st = (Ok (PProxy data schema), st1)
    ∧ cache st1 !! "post" = Some data
    ∧ load_form req schema st1 = (Ok (PProxy data schema), st1).
Proof.
  rewrite load_form_any.
  destruct (is_None (default PyNone (cache st !! "post"))) eqn:Hnone.
  - eexists _, _. split; [done|]. cbn [cache].
    split; [apply lookup_insert_eq|].
    rewrite load_form_any. cbn [cache]. by rewrite lookup_insert_eq.
  - destruct (cache st !! "post") as [v|] eqn:Hc; [|done].
    exists v, st. split; [done|]. split; [done|].
    rewrite load_form_any, Hc. cbn [default from_option id] in *.
    by rewrite Hnone.
Qed.

(** X9: a value [load_json] has returned, other than the missing
    sentinel and [None], is what the next [load_json] returns, and that
    call leaves the state as it is: no second read of the body. *)
Theorem load_json_repeatable req schema st v st1 :
  load_json req schema st = (Ok v, st1) →
  is_missing v = false →
  is_None v = false →
  load_json req schema st1 = (Ok v, st1).
Proof.
  intros Hload Hmiss Hnone.
  destruct (is_None (default PyNone (cache st !! "json"))) eqn:Hc.
  - rewrite load_json_uncached in Hload by done.
    destruct (negb (body_exists req && is_json_request req)).
    { injection Hload as <- _. done. }
    cbv zeta in Hload.
    destruct (req_json req) as [j|doc| |e].
    + injection Hload as <- <-.
      apply load_json_cached; [apply lookup_insert_eq | done].
    + destruct (String.eqb doc ""); [injection Hload as <- _; done|].
      destruct (handle_invalid_json_error_state pyobj req
                  (mkState (cache st) (ReadJson :: io_log st))) as [_ Hraise].
      destruct (Hraise v). by rewrite Hload.
    + destruct (handle_invalid_json_error_state pyobj req
                  (mkState (cache st) (ReadJson :: io_log st))) as [_ Hraise].
      destruct (Hraise v). by rewrite Hload.
    + done.
  - destruct (cache st !! "json") as [v0|] eqn:Hv0; [|done].
    rewrite (load_json_cached _ _ _ v0) in Hload by done.
    injection Hload as <- <-. by apply load_json_cached.
Qed.

Lemma load_json_reread req schema st :
  body_exists req && is_json_request req = true →
  (∀ j, req_json req = JsonValue j → j = JNull) →
  is_None (default PyNone (cache st !! "json")) = true →
  is_None (default PyNone (cache (load_json req schema st).2 !! "json")) = true
  ∧ reads ReadJson (load_json req schema st).2 = S (reads ReadJson st).
Proof.
  intros Hguard Hnull Hnone.
  rewrite load_json_uncached, Hguard by done. cbn [negb]. cbv zeta.
  destruct (req_json req) as [j|doc| |e] eqn:Hread;
    [| | |split; [done | apply reads_await_same]].
  - rewrite (Hnull j eq_refl). cbn [snd cache].
    rewrite lookup_insert_eq. split; [done|].
    by rewrite reads_log, <- (reads_await_same ReadJson st).
  - assert ((if String.eqb doc ""
             then (Ok PMissing, mkState (cache st) (ReadJson :: io_log st))
             else _handle_invalid_json_error req
                    (mkState (cache st) (ReadJson :: io_log st))).2
            = mkState (cache st) (ReadJson :: io_log st)) as ->.
    { destruct (String.eqb doc ""); [done|].
      apply handle_invalid_json_error_state. }
    split; [done | apply reads_await_same].
  - rewrite (proj1 (handle_invalid_json_error_state pyobj req _)).
    split; [done | apply reads_await_same].
Qed.

(** X10: a JSON request whose body does not decode to a document other
    than null (it is empty, malformed, undecodable, or the document null)
    is never served from the cache: n loads of [json] await the body
    read n times. *)
Theorem uncached_json_body_reread (n : nat) req schema :
  body_exists req && is_json_request req = true →
  (∀ j, req_json req = JsonValue j → j = JNull) →
  reads ReadJson (run_loads (repeat LJson n) req schema fresh) = n.
Proof.
  intros Hguard Hnull.
  assert (∀ st, is_None (default PyNone (cache st !! "json")) = true →
                reads ReadJson (run_loads (repeat LJson n) req schema st)
                = (reads ReadJson st + n)%nat) as Hgen.
  { induction n as [|n IH]; intros st Hnone; [simpl; lia|].
    cbn [repeat run_loads load_location].
    destruct (load_json_reread req schema st Hguard Hnull Hnone) as [Hnone' Hr].
    rewrite IH, Hr by done. lia. }
  by rewrite Hgen.
Qed.

(** X11: the loaders write the cache only under their own key: [load_json]
    leaves every entry but [json] as it was, [load_form] every entry but
    [post], and no loader removes an entry. *)
Theorem loaders_keep_other_entries req schema st (key : string) :
  (key ≠ "json" → cache (load_json req schema st).2 !! key = cache st !! key)
  ∧ (key ≠ "post" → cache (load_form req schema st).2 !! key = cache st !! key)
  ∧ (key ≠ "json" → key ≠ "post" →
     cache (load_json_or_form req schema st).2 !! key = cache st !! key)
  ∧ (is_Some (cache st !! key) →
     is_Some (cache (load_json_or_form req schema st).2 !! key)).
Proof.
  assert (∀ st0, key ≠ "json" →
                 cache (load_json req schema st0).2 !! key = cache st0 !! key)
    as Hjson.
  { intros st0 Hne.
    destruct (load_json_state req schema st0)
      as [-> | [[-> _] | (j & _ & _ & _ & ->)]]; [done..|].
    cbn [cache]. by rewrite lookup_insert_ne. }
  assert (∀ st0, key ≠ "post" →
                 cache (load_form req schema st0).2 !! key = cache st0 !! key)
    as Hform.
  { intros st0 Hne.
    destruct (load_form_shape req schema st0) as [-> | ->]; [done|].
    cbn [cache]. by rewrite lookup_insert_ne. }
  assert (∀ st0, is_Some (cache st0 !! key) →
                 is_Some (cache (load_json req schema st0).2 !! key)) as Hjkeep.
  { intros st0 Hsome.
    destruct (load_json_state req schema st0)
      as [-> | [[-> _] | (j & _ & _ & _ & ->)]]; [done..|].
    cbn [cache]. rewrite lookup_insert. case_decide; [by eexists | done]. }
  assert (∀ st0, is_Some (cache st0 !! key) →
                 is_Some (cache (load_form req schema st0).2 !! key)) as Hfkeep.
  { intros st0 Hsome.
    destruct (load_form_shape req schema st0) as [-> | ->]; [done|].
    cbn [cache]. rewrite lookup_insert. case_decide; [by eexists | done]. }
  split; [apply Hjson|]. split; [apply Hform|]. split.
  - intros Hj Hp.
    destruct (load_json_or_form_state req schema st) as [-> | ->].
    + by apply Hjson.
    + by rewrite Hform, Hjson.
  - intros Hsome.
    destruct (load_json_or_form_state req schema st) as [-> | ->].
    + by apply Hjkeep.
    + by apply Hfkeep, Hjkeep.
Qed.

(** X12: one call of a loader awaits each body read at most once:
    [load_json] never the form read, [load_form] never the JSON read;
    hence a sequence of k loads awaits a read at most k times. *)
Theorem loaders_read_counts req schema st locs ev :
  reads ReadPost (load_json req schema st).2 = reads ReadPost st
  ∧ reads ReadJson (load_form req schema st).2 = reads ReadJson st
  ∧ (reads ev st ≤ reads ev (load_json req schema st).2 ≤ S (reads ev st))%nat
  ∧ (reads ev st ≤ reads ev (load_form req schema st).2 ≤ S (reads ev st))%nat
  ∧ (reads ev st ≤ reads ev (load_json_or_form req schema st).2
     ≤ S (reads ev st))%nat
  ∧ (reads ev st ≤ reads ev (run_loads locs req schema st)
     ≤ reads ev st + length locs)%nat.
Proof.
  destruct (load_json_reads req schema st) as [Hjp Hjj].
  destruct (load_form_reads req schema st) as [Hfj Hfp].
  split; [done|]. split; [done|]. split; [|split; [|split]].
  - destruct ev; [destruct Hjj as [-> | ->]; lia | rewrite Hjp; lia].
  - destruct ev; [rewrite Hfj; lia | destruct Hfp as [-> | ->]; lia].
  - destruct (load_json_or_form_reads req schema st ev) as [-> | ->]; lia.
  - revert st Hjp Hjj Hfj Hfp.
    induction locs as [|loc locs IH]; intros st _ _ _ _; [simpl; lia|].
    cbn [run_loads length].
    specialize (IH (load_location loc req schema st).2).
    destruct (load_json_reads req schema (load_location loc req schema st).2)
      as [Hjp Hjj].
    destruct (load_form_reads req schema (load_location loc req schema st).2)
      as [Hfj Hfp].
    specialize (IH Hjp Hjj Hfj Hfp).
    destruct (load_location_reads loc req schema st ev) as [Hr | Hr];
      rewrite Hr in IH; lia.
Qed.

End LoaderProperties.

(** ** What the loaders return *)

Section LoaderResults.

Context `{Framework}.

Lemma handle_invalid_json_error_result (A : Type) req st :
  (@_handle_invalid_json_error _ A req st).1 =
  (@_handle_invalid_json_error _ A req fresh).1.
Proof.
  unfold _handle_invalid_json_error.
  by destruct (exception_map !! 400).
Qed.

Lemma load_json_uncached_result req schema st :
  is_None (default PyNone (cache st !! "json")) = true →
  (load_json req schema st).1 = (load_json req schema fresh).1.
Proof.
  intros Hnone. rewrite !load_json_uncached by done.
  destruct (negb (body_exists req && is_json_request req)); [done|].
  cbv zeta. destruct (req_json req) as [j|doc| |e]; [done| | |done].
  - destruct (String.eqb doc ""); [done|].
    etrans; [apply handle_invalid_json_error_result|].
    symmetry. apply handle_invalid_json_error_result.
  - etrans; [apply handle_invalid_json_error_result|].
    symmetry. apply handle_invalid_json_error_result.
Qed.

Lemma load_json_transparent req schema st :
  json_cache_ok req st →
  (load_json req schema st).1 = (load_json req schema fresh).1.
Proof.
  intros Hok.
  destruct (is_None (default PyNone (cache st !! "json"))) eqn:Hnone.
  - by apply load_json_uncached_result.
  - destruct Hok as [Hc | (j & Hguard & Hread & Hc)];
      [by rewrite Hc in Hnone|].
    rewrite Hc in Hnone. rewrite (load_json_cached _ _ _ _ Hc) by done.
    rewrite load_json_uncached by done.
    by rewrite Hguard, Hread.
Qed.

Lemma load_form_transparent req schema st :
  post_cache_ok req st →
  (load_form req schema st).1 = (load_form req schema fresh).1.
Proof.
  intros Hok. rewrite load_form_state by done.
  by rewrite load_form_uncached.
Qed.

(** X13: [load_json_or_form] never returns the missing sentinel, on any
    state: when the JSON load is missing the form proxy is returned. *)
Theorem load_json_or_form_never_missing req schema st :
  (load_json_or_form req schema st).1 ≠ Ok PMissing.
Proof.
  rewrite load_json_or_form_unfold.
  destruct (load_json req schema st) as [[data|e] st1]; [|done].
  destruct data; try done. cbn [is_missing negb].
  destruct (load_form_total_idempotent req schema st1) as (d & st2 & -> & _).
  done.
Qed.

(** X14: [load_json] raises only for a request with a body and a JSON
    content type, after the read was awaited and with the cache as
    before, in one of two ways.  Either the read failed with an
    exception other than the two the loader handles (a lookup error for
    an unknown charset, for one), which is passed on as it is.  Or the
    body could not be decoded to text or is non-empty text that does not
    parse, and the exception is what calling the type filed under 400 (a
    type of status 400) with keyword arguments gives: the HTTP error
    with the invalid-JSON body, or a type error when that constructor
    has parameters that must be passed by position; a key error if the
    table had no entry for 400. *)
Theorem load_json_raises_only_invalid req schema st e st1 :
  load_json req schema st = (Raise e, st1) →
  body_exists req && is_json_request req = true
  ∧ st1 = mkState (cache st) (ReadJson :: io_log st)
  ∧ (req_json req = ReadError e
     ∨ ((req_json req = UnicodeDecodeError
         ∨ ∃ doc, req_json req = JSONDecodeError doc ∧ doc ≠ "")
        ∧ ((exception_map !! 400 = None ∧ e = KeyError "400")
           ∨ ∃ error_class,
               exception_map !! 400 = Some error_class
               ∧ status_code error_class = Some 400
               ∧ e = match init_positional error_class with
                     | [] =>
                         HTTPError
                           (mkHTTPError error_class
                              (encode_utf8 (json_dumps invalid_json_messages))
                              None
                              "application/json")
                     | missing => TypeError missing
                     end))).
Proof.
  intros Hload.
  assert (∀ st0, @_handle_invalid_json_error _ pyobj req st0 = (Raise e, st1) →
                 st1 = st0
                 ∧ ((exception_map !! 400 = None ∧ e = KeyError "400")
                    ∨ ∃ error_class,
                        exception_map !! 400 = Some error_class
                        ∧ status_code error_class = Some 400
                        ∧ e = match init_positional error_class with
                              | [] =>
                                  HTTPError
                                    (mkHTTPError error_class
                                       (encode_utf8
                                          (json_dumps invalid_json_messages))
                                       None
                                       "application/json")
                              | missing => TypeError missing
                              end)) as Hraise.
  { intros st0. unfold _handle_invalid_json_error.
    destruct (exception_map !! 400) as [c|] eqn:Hc; intros [= <- <-].
    - split; [done|]. right. exists c. split; [done|].
      split; [by apply exception_map_keyed | done].
    - split; [done|]. by left. }
  destruct (is_None (default PyNone (cache st !! "json"))) eqn:Hnone.
  - rewrite load_json_uncached in Hload by done.
    destruct (body_exists req && is_json_request req); [|done].
    cbn [negb] in Hload. cbv zeta in Hload. split; [done|].
    destruct (req_json req) as [j|doc| |e']; [done| | |].
    + destruct (String.eqb doc "") eqn:Hne; [done|].
      apply String.eqb_neq in Hne.
      destruct (Hraise _ Hload) as [-> Hexn].
      split; [done|]. right. split; [right; by exists doc | done].
    + destruct (Hraise _ Hload) as [-> Hexn].
      split; [done|]. right. split; [by left | done].
    + injection Hload as -> <-. split; [done | by left].
  - destruct (cache st !! "json") as [v|] eqn:Hc; [|done].
    by rewrite (load_json_cached _ _ _ v) in Hload.
Qed.

(** X15: the cache does not show in what is loaded: after any sequence
    of loads from a request, [load_json], [load_form] and
    [load_json_or_form] return what they return on a fresh parser. *)
Theorem loads_cache_transparent locs req schema :
  let st := run_loads locs req schema fresh in
  (load_json req schema st).1 = (load_json req schema fresh).1
  ∧ (load_form req schema st).1 = (load_form req schema fresh).1
  ∧ (load_json_or_form req schema st).1 = (load_json_or_form req schema fresh).1.
Proof.
  intros st.
  assert (cache_inv req st) as Hinv by apply run_loads_inv, fresh_inv.
  assert (∀ st0, cache_inv req st0 →
                 (load_json_or_form req schema st0).1 =
                 match (load_json req schema fresh).1 with
                 | Ok data =>
                     if negb (is_missing data) then Ok data
                     else Ok (PProxy (PMultiDict (post req)) schema)
                 | Raise e => Raise e
                 end) as Hcombined.
  { intros st0 Hinv0. rewrite load_json_or_form_unfold.
    rewrite <- (load_json_transparent req schema st0) by apply Hinv0.
    pose proof (load_json_inv req schema st0 Hinv0) as Hinv1.
    destruct (load_json req schema st0) as [[data|e] st1]; [|done].
    cbn [fst snd] in *. destruct (negb (is_missing data)); [done|].
    by rewrite load_form_state by apply Hinv1. }
  split; [apply load_json_transparent, Hinv|].
  split; [apply load_form_transparent, Hinv|].
  by rewrite !Hcombined by (done || apply fresh_inv).
Qed.

(** X16: a JSON request whose body decodes is loaded to the decoded
    document at any point of handling the request, and afterwards the
    cache holds that document under [json]. *)
Theorem load_json_decoded locs req schema j :
  body_exists req && is_json_request req = true →
  req_json req = JsonValue j →
  ∃ st1, load_json req schema (run_loads locs req schema fresh)
         = (Ok (PJson j), st1)
         ∧ cache st1 !! "json" = Some (PJson j).
Proof.
  intros Hguard Hread. set (st := run_loads locs req schema fresh).
  assert (cache_inv req st) as (Hok & _) by apply run_loads_inv, fresh_inv.
  destruct (is_None (default PyNone (cache st !! "json"))) eqn:Hnone.
  - rewrite load_json_uncached, Hguard, Hread by done.
    eexists. split; [done|]. cbn [cache]. apply lookup_insert_eq.
  - destruct Hok as [Hc | (j' & _ & Hread' & Hc)]; [by rewrite Hc in Hnone|].
    rewrite Hread in Hread'. injection Hread' as <-.
    rewrite Hc in Hnone. exists st.
    by rewrite (load_json_cached _ _ _ _ Hc).
Qed.

(** X17: loads from the query string, the headers, the cookies and the
    route parameters (and the refused load of files) neither read nor
    write the parser state, however many are made. *)
Theorem stateless_loads_keep_state locs req schema st :
  forallb stateless locs = true →
  run_loads locs req schema st = st
  ∧ Forall (λ loc, loc = LFiles
                   ∨ ∃ value, load_location loc req schema st = (Ok value, st))
           locs.
Proof.
  induction locs as [|loc locs IH]; [done|].
  cbn [forallb]. intros [Hloc Hlocs]%andb_prop.
  destruct (IH Hlocs) as [Hrun Hall].
  assert ((load_location loc req schema st).2 = st) as Hstep
    by (by destruct loc).
  split.
  - cbn [run_loads]. by rewrite Hstep.
  - constructor; [|done].
    destruct loc; try done; try (right; by eexists). by left.
Qed.

End LoaderResults.

(** ** The request lookup *)

Lemma find_request_none (args : list pyarg) :
  find_request args = None ↔ forallb is_other args = true.
Proof.
  induction args as [|a args IH]; [done|].
  destruct a; simpl; [done..|]. apply IH.
Qed.

Lemma find_request_app (args more : list pyarg) r :
  find_request args = Some r → find_request (args ++ more)%list = Some r.
Proof.
  induction args as [|a args IH]; [done|].
  destruct a; simpl; [done..|]. apply IH.
Qed.

(** X18: [get_request_from_view_args] raises exactly when every
    positional argument is neither a request nor a view; the view and
    the keyword arguments play no part (a request passed by keyword is
    not found), and arguments after the one that matched do not matter. *)
Theorem get_request_from_view_args_error_iff view (args : list pyarg) kwargs :
  (get_request_from_view_args view args kwargs =
   Raise (ValueError "Request argument not found for handler")
   ↔ forallb is_other args = true)
  ∧ (∀ view' kwargs',
       get_request_from_view_args view' args kwargs' =
       get_request_from_view_args view args kwargs)
  ∧ (∀ r more,
       get_request_from_view_args view args kwargs = Ok r →
       get_request_from_view_args view (args ++ more)%list kwargs = Ok r).
Proof.
  unfold get_request_from_view_args. split; [|split].
  - rewrite <- find_request_none.
    destruct (find_request args); [split; done | done].
  - done.
  - intros r more.
    destruct (find_request args) as [r'|] eqn:Hfind; [|done].
    intros [= ->]. by rewrite (find_request_app _ more _ Hfind).
Qed.

(** * The further properties on the samples *)

Lemma exception_map_entries_witness :
  qualifies Sample.HTTPBadRequest 400
  ∧ ((400 = 422 ∧ Sample.HTTPBadRequest = HTTPUnprocessableEntity)
     ∨ AttrClass Sample.HTTPBadRequest ∈ Sample.exceptions).
Proof.
  exact (@exception_map_entries Sample.framework 400 Sample.HTTPBadRequest
           eq_refl).
Defined.

Lemma sample_provides_404 : @provides_status Sample.framework 404.
Proof. compute_done. Defined.

Lemma sample_lacks_499 : ¬ @provides_status Sample.framework 499.
Proof. compute_done. Defined.

Lemma exception_map_domain_witness :
  is_Some (@exception_map Sample.framework !! 404)
  ∧ (is_Some (@exception_map Sample.framework !! 499) → False).
Proof.
  split.
  - apply (proj2 (@exception_map_domain Sample.framework 404)).
    right. exact sample_provides_404.
  - intros Hsome.
    destruct (proj1 (@exception_map_domain Sample.framework 499) Hsome)
      as [Heq | Hprov]; [discriminate Heq | exact (sample_lacks_499 Hprov)].
Defined.

Lemma exception_map_keeps_seed_witness :
  none_qualifies 422 Sample.exceptions
  ∧ @exception_map Sample.framework !! 422 = Some HTTPUnprocessableEntity.
Proof.
  assert (none_qualifies 422 Sample.exceptions) as Hnone by compute_done.
  split; [exact Hnone|].
  exact (@exception_map_keeps_seed Sample.framework Hnone).
Defined.

Lemma exception_map_framework_422_witness :
  ∃ r, @exception_map MoreSamples.framework !! 422 = Some r
       ∧ AttrClass r ∈ MoreSamples.exceptions
       ∧ qualifies r 422.
Proof.
  apply (@exception_map_framework_422 MoreSamples.framework).
  exists MoreSamples.HTTPUnprocessableEntity. split; [|split].
  - apply list_elem_of_In. simpl. tauto.
  - split; reflexivity.
  - reflexivity.
Defined.

Lemma more_samples_provide_405 : @provides_status MoreSamples.framework 405.
Proof. compute_done. Defined.

Lemma handle_error_outcome_witness :
  @handle_error Sample.framework pyobj Sample.failure Sample.form_request
    ∅ (Some 404) None fresh
  = (Raise (HTTPError
              (mkHTTPError Sample.HTTPNotFound
                 (encode_utf8 (Sample.dumps (messages Sample.failure)))
                 None "application/json")), fresh)
  ∧ @handle_error MoreSamples.framework pyobj Sample.failure
      Sample.form_request ∅ (Some 405) None fresh
    = (Raise (TypeError ["method"; "allowed_methods"]), fresh)
  ∧ @handle_error Sample.framework pyobj Sample.failure Sample.form_request
      ∅ (Some 499) None fresh
    = (Raise (LookupError "No exception for {0}" (Some 499)), fresh).
Proof.
  split; [|split].
  - destruct (proj1 (@handle_error_outcome Sample.framework pyobj
                       Sample.failure Sample.form_request ∅ (Some 404) None
                       fresh) (or_intror sample_provides_404))
      as (c & _ & Hc & Hraise).
    injection Hc as <-. exact Hraise.
  - destruct (proj1 (@handle_error_outcome MoreSamples.framework pyobj
                       Sample.failure Sample.form_request ∅ (Some 405) None
                       fresh) (or_intror more_samples_provide_405))
      as (c & _ & Hc & Hraise).
    injection Hc as <-. exact Hraise.
  - apply (proj2 (@handle_error_outcome Sample.framework pyobj Sample.failure
                    Sample.form_request ∅ (Some 499) None fresh)).
    + discriminate.
    + exact sample_lacks_499.
Defined.

Lemma invalid_json_error_as_handle_error_witness :
  @_handle_invalid_json_error Sample.framework pyobj Sample.form_request fresh
  = @handle_error Sample.framework pyobj {| messages := invalid_json_messages |}
      Sample.form_request ∅ (Some 400) None fresh
  ∧ @_handle_invalid_json_error Sample.bare_framework pyobj Sample.form_request
      fresh
    = (Raise (KeyError "400"), fresh).
Proof.
  split.
  - apply (proj1 (@invalid_json_error_as_handle_error Sample.framework pyobj
                    Sample.form_request ∅ fresh)).
    exists Sample.HTTPBadRequest. reflexivity.
  - apply (proj2 (@invalid_json_error_as_handle_error Sample.bare_framework
                    pyobj Sample.form_request ∅ fresh)).
    reflexivity.
Defined.

Lemma load_json_repeatable_witness :
  let st1 := mkState {[ "json" := PJson (JObj []) ]} [ReadJson] in
  @load_json Sample.framework (Sample.json_request (Some "{}")) ∅ st1
  = (Ok (PJson (JObj [])), st1).
Proof.
  intros st1.
  apply (@load_json_repeatable Sample.framework
           (Sample.json_request (Some "{}")) ∅ fresh);
    reflexivity.
Defined.

Lemma uncached_json_body_reread_witness :
  reads ReadJson
    (@run_loads Sample.framework [LJson; LJson; LJson]
                (Sample.json_request (Some "null")) ∅ fresh) = 3%nat.
Proof.
  apply (@uncached_json_body_reread Sample.framework 3
           (Sample.json_request (Some "null")) ∅).
  - reflexivity.
  - intros j Hj. injection Hj as <-. reflexivity.
Defined.

Lemma loaders_keep_other_entries_witness :
  cache (load_form Sample.form_request ∅ MoreSamples.cached_state).2 !! "other"
  = Some PMissing
  ∧ cache (load_form Sample.form_request ∅ MoreSamples.cached_state).2 !! "json"
    = Some (PJson (JObj [])).
Proof.
  split.
  - apply (proj1 (proj2 (@loaders_keep_other_entries Sample.framework
                           Sample.form_request ∅ MoreSamples.cached_state
                           "other"))).
    discriminate.
  - apply (proj1 (proj2 (@loaders_keep_other_entries Sample.framework
                           Sample.form_request ∅ MoreSamples.cached_state
                           "json"))).
    discriminate.
Defined.

Lemma load_json_raises_only_invalid_witness :
  @req_json Sample.framework MoreSamples.bogus_charset_request
  = ReadError (LookupError "unknown encoding: bogus" None)
  ∧ ∃ doc, @req_json Sample.framework (Sample.json_request (Some "{bad"))
           = JSONDecodeError doc ∧ doc ≠ "".
Proof.
  split.
  - destruct (@load_json_raises_only_invalid Sample.framework
                MoreSamples.bogus_charset_request ∅ fresh
                (LookupError "unknown encoding: bogus" None)
                (mkState ∅ [ReadJson]) eq_refl)
      as (_ & _ & [Hread | [[Hread | (doc & Hread & _)] _]]);
      [exact Hread | discriminate Hread | discriminate Hread].
  - destruct (@load_json_raises_only_invalid Sample.framework
                (Sample.json_request (Some "{bad")) ∅ fresh
                (HTTPError
                   (mkHTTPError Sample.HTTPBadRequest
                      (encode_utf8 (Sample.dumps invalid_json_messages))
                      None "application/json"))
                (mkState ∅ [ReadJson]) eq_refl)
      as (_ & _ & [Hread | [[Hread | Hdoc] _]]);
      [discriminate Hread | discriminate Hread | exact Hdoc].
Defined.

Lemma load_json_decoded_witness :
  ∃ st1, @load_json Sample.framework (Sample.json_request (Some "{}")) ∅
           (@run_loads Sample.framework [LJsonOrForm; LForm]
                       (Sample.json_request (Some "{}")) ∅ fresh)
         = (Ok (PJson (JObj [])), st1)
         ∧ cache st1 !! "json" = Some (PJson (JObj [])).
Proof.
  apply (@load_json_decoded Sample.framework [LJsonOrForm; LForm]
           (Sample.json_request (Some "{}")) ∅ (JObj []));
    reflexivity.
Defined.

Lemma stateless_loads_keep_state_witness :
  @run_loads Sample.framework [LQuery; LHeaders; LFiles; LCookies; LPath]
             Sample.query_request ∅ MoreSamples.cached_state
  = MoreSamples.cached_state.
Proof.
  apply (@stateless_loads_keep_state Sample.framework
           [LQuery; LHeaders; LFiles; LCookies; LPath]
           Sample.query_request ∅ MoreSamples.cached_state).
  reflexivity.
Defined.

Lemma get_request_from_view_args_error_iff_witness :
  get_request_from_view_args "index" []
    [("request", ArgRequest Sample.query_request)]
  = Raise (ValueError "Request argument not found for handler")
  ∧ get_request_from_view_args "index"
      ([ArgRequest Sample.query_request] ++ [ArgRequest Sample.form_request])%list
      []
    = Ok Sample.query_request.
Proof.
  split.
  - apply (proj1 (get_request_from_view_args_error_iff "index" []
                    [("request", ArgRequest Sample.query_request)])).
    reflexivity.
  - apply (proj2 (proj2 (get_request_from_view_args_error_iff "index"
                           [ArgRequest Sample.query_request] []))).
    reflexivity.
Defined.

Lemma load_json_or_form_never_missing_witness :
  (@load_json_or_form Sample.framework (Sample.json_request (Some "")) ∅ fresh).1
  ≠ Ok PMissing.
Proof.
  exact (@load_json_or_form_never_missing Sample.framework
           (Sample.json_request (Some "")) ∅ fresh).
Defined.
